(** * Game sessions, statistics and leaderboard of the chess bot

    A shallow embedding of [src/db/db_funcs.py] and of
    [Settings.async_init] from [src/db/models/settings.py].

    The relational store is a record of three tables, each a list of rows in
    insertion order.  Every function of [db_funcs.py] becomes a computation
    in a small state-and-error monad over the store and the log of requests
    sent to the evaluation service.  SQL statements are modelled by what they
    do to the tables: [select ... where] is [List.filter], [scalar] is the
    first row of the result, [update ... where ... values] rewrites the
    matching rows, [add] appends a row. *)

From Stdlib Require Import ZArith Floats.
From stdpp Require Import gmap strings list sorting pretty.

Local Open Scope string_scope.
Local Open Scope list_scope.
Local Open Scope Z_scope.

(** ** Values and rows *)

(** A Python value as it occurs in keyword arguments and in the columns of
    the settings table: an [int] (a [bool] is an [int] in Python) or a [str]. *)
Inductive value : Type :=
| VInt (z : Z)
| VStr (s : string).

#[global] Instance value_eq_dec : EqDecision value.
Proof. solve_decision. Defined.

Module User.
(** Modelled from the spec: the [User] model of [src/db/models/user.py],
    which is not among the sources.  The columns are those [db_funcs.py]
    reads and writes (section 3 of the specification); [created_time] is the
    creation timestamp. *)
Record t : Type := mk {
  user_id : Z;
  name : string;
  created_time : Z;
  total_games : Z;
  total_wins : Z;
  total_defeats : Z;
  total_draws : Z
}.
End User.

Module Game.
(** Modelled from the spec: the [Game] model of [src/db/models/game.py],
    which is not among the sources.  The columns are those [db_funcs.py]
    reads and writes (section 3 of the specification). *)
Record t : Type := mk {
  user_id : Z;
  orientation : string;
  is_active : bool;
  prev_moves : string;
  last_move : option string;
  check : option string;
  fen : string;
  who_win : option string
}.
End Game.

(** A row of the settings table: column name to value.  The row is built by
    [Settings.async_init] from a dictionary, and [update_settings] writes a
    dictionary of columns into it. *)
Abbreviation Settings := (gmap string value).

Module EngineEvaluation.
(** Modelled from the spec: the result of the evaluation service, a
    dataclass of [src/utils/chess_api/dataclasses.py], which is not among
    the sources.  The fields are those of section 6 of the specification. *)
Record t : Type := mk {
  value : Z;
  end_type : string;
  is_end : bool;
  who_win : option string;
  wdl : Z * Z * Z
}.
End EngineEvaluation.

Record Store : Type := mkStore {
  users : list User.t;
  settings : list Settings;
  games : list Game.t
}.

Definition empty_store : Store := mkStore [] [] [].

(** ** Exceptions, results and the monad *)

Inductive exn : Type :=
| ValueError
| AttributeError
| TypeError
| ZeroDivisionError
| OverflowError.

Inductive result (A : Type) : Type :=
| Return (a : A)
| Raise (e : exn).
Arguments Return {A} a.
Arguments Raise {A} e.

(** What a computation can change: the store, and the list of positions
    sent to the evaluation service (most recent last). *)
Record World : Type := mkWorld {
  db : Store;
  engine_calls : list string
}.

Definition M (A : Type) : Type := World -> World * result A.

Definition ret {A} (a : A) : M A := fun w => (w, Return a).

Definition raise {A} (e : exn) : M A := fun w => (w, Raise e).

Definition bind {A B} (m : M A) (k : A -> M B) : M B :=
  fun w =>
    match m w with
    | (w', Return a) => k a w'
    | (w', Raise e) => (w', Raise e)
    end.

Notation "'let*' x ':=' m 'in' k" := (bind m (fun x => k))
  (at level 10, x pattern, m at level 100, k at level 200,
   format "'[v' 'let*'  x  ':='  m  'in' '/' k ']'").
Notation "m '>>' k" := (bind m (fun _ => k))
  (at level 89, right associativity).

(** A result computed outside the monad, continued or raised inside it. *)
Definition lift {A} (r : result A) : M A := fun w => (w, r).

(** Reading and writing the tables. *)
Definition get_db : M Store := fun w => (w, Return (db w)).

Definition put_db (s : Store) : M unit :=
  fun w => (mkWorld s (engine_calls w), Return tt).

(** Modelled from the spec: [with create_session(do_commit=True) as
    db_sess: body], whose context manager ([src/db/db_session.py]) is not
    among the sources.  By section 7 of the specification a unit of work
    that aborts leaves no partial effect, so an exception raised in the body
    discards the writes of the body.  Requests already sent to the
    evaluation service stay sent. *)
Definition create_session_do_commit {A} (body : M A) : M A :=
  fun w =>
    match body w with
    | (w', Return a) => (w', Return a)
    | (w', Raise e) => (mkWorld (db w) (engine_calls w'), Raise e)
    end.

(** ** Queries *)

(** [db_sess.scalar(query)]: the first row of the result, [None] if there is
    none. *)
Definition scalar {A} (rows : list A) : option A := head rows.

Definition where_user (user_id : Z) (u : User.t) : bool :=
  Z.eqb (User.user_id u) user_id.

(** [Game.user_id == user_id, Game.is_active == True] *)
Definition where_active_game (user_id : Z) (g : Game.t) : bool :=
  Z.eqb (Game.user_id g) user_id && Game.is_active g.

(** [Settings.user_id == user_id] *)
Definition where_settings (user_id : Z) (r : Settings) : bool :=
  bool_decide (r !! "user_id" = Some (VInt user_id)).

(** db_funcs.py, lines 60-70. *)
Definition get_user (user_id : Z) : M (option User.t) :=
  let* s := get_db in
  ret (scalar (List.filter (where_user user_id) (users s))).

(** db_funcs.py, lines 73-83. *)
Definition get_settings (user_id : Z) : M (option Settings) :=
  let* s := get_db in
  ret (scalar (List.filter (where_settings user_id) (settings s))).

(** db_funcs.py, lines 86-100. *)
Definition get_current_game (user_id : Z) : M (option Game.t) :=
  let* s := get_db in
  ret (scalar (List.filter (where_active_game user_id) (games s))).

(** ** Statements *)

Definition add_user (u : User.t) : M unit :=
  let* s := get_db in
  put_db (mkStore (users s ++ [u]) (settings s) (games s)).

Definition add_settings (r : Settings) : M unit :=
  let* s := get_db in
  put_db (mkStore (users s) (settings s ++ [r]) (games s)).

Definition add_game (g : Game.t) : M unit :=
  let* s := get_db in
  put_db (mkStore (users s) (settings s) (games s ++ [g])).

(** [sa.update(T).where(p).values(f)]: every row matching [p] is rewritten
    by [f], the others stay, the order of rows is kept. *)
Definition update_where {A} (p : A -> bool) (f : A -> A) (rows : list A)
  : list A :=
  List.map (fun r => if p r then f r else r) rows.

Definition update_games (p : Game.t -> bool) (f : Game.t -> Game.t) : M unit :=
  let* s := get_db in
  put_db (mkStore (users s) (settings s) (update_where p f (games s))).

Definition update_users (p : User.t -> bool) (f : User.t -> User.t) : M unit :=
  let* s := get_db in
  put_db (mkStore (update_where p f (users s)) (settings s) (games s)).

Definition update_settings_rows (p : Settings -> bool)
  (f : Settings -> Settings) : M unit :=
  let* s := get_db in
  put_db (mkStore (users s) (update_where p f (settings s)) (games s)).

(** [.values(is_active=False, who_win=who_win)] *)
Definition set_stopped (who_win : option string) (g : Game.t) : Game.t :=
  Game.mk (Game.user_id g) (Game.orientation g) false (Game.prev_moves g)
    (Game.last_move g) (Game.check g) (Game.fen g) who_win.

(** [.values(prev_moves=..., fen=..., last_move=..., check=...)] *)
Definition set_position (prev_moves last_move : string)
  (check : option string) (fen : string) (g : Game.t) : Game.t :=
  Game.mk (Game.user_id g) (Game.orientation g) (Game.is_active g) prev_moves
    (Some last_move) check fen (Game.who_win g).

(** [.values(total_games=..., total_wins=..., total_defeats=...,
    total_draws=...)] *)
Definition set_totals (games wins defeats draws : Z) (u : User.t) : User.t :=
  User.mk (User.user_id u) (User.name u) (User.created_time u)
    games wins defeats draws.

(** Python's [a == b] between a [str] and a [str | None]. *)
Definition str_eq_opt (a : string) (b : option string) : bool :=
  match b with
  | Some b' => String.eqb a b'
  | None => false
  end.

Definition is_None {A} (o : option A) : bool :=
  match o with
  | None => true
  | Some _ => false
  end.

(** ** The operations of db_funcs.py *)

Section Operations.

(** The collaborators, as the answers they give during one call:
    [get_engine_evaluation(fen=...)], [get_limits()], [get_defaults()] and
    the clock behind the [created_time] column.  Their modules are not
    among the sources. *)
Variable engine : string -> EngineEvaluation.t.
Variable limits : gmap string (gmap string Z).
Variable defaults : gmap string value.
Variable utcnow : Z.
(** The position a new game starts from (a column default of [Game]). *)
Variable start_fen : string.

Definition get_engine_evaluation (fen : string) : M EngineEvaluation.t :=
  fun w => (mkWorld (db w) (engine_calls w ++ [fen]), Return (engine fen)).

Definition get_limits : M (gmap string (gmap string Z)) := ret limits.

Definition get_defaults : M (gmap string value) := ret defaults.

(** Modelled from the spec: [User(user_id=user_id, name=name)] with the
    column defaults of the model, which is not among the sources.  The
    counters of a new user are zero, [created_time] is the time of
    creation. *)
Definition new_User (user_id : Z) (name : string) : User.t :=
  User.mk user_id name utcnow 0 0 0 0.

(** Modelled from the spec:
    [Game(user_id=user_id, orientation=orientation, is_active=True)] with
    the column defaults of the model, which is not among the sources.  A
    new game has an empty history, the starting position and no winner
    (section 4.3 of the specification). *)
Definition new_Game (user_id : Z) (orientation : string) : Game.t :=
  Game.mk user_id orientation true "" None None start_fen None.

(** settings.py, lines 42-48: the constructor keeps its keyword
    arguments, [async_init] lays them over the defaults of the service
    ([defaults.update(self.kwargs)]). *)
Definition Settings_async_init (kwargs : gmap string value) : M Settings :=
  let* defaults := get_defaults in
  ret (kwargs ∪ defaults).

(** db_funcs.py, lines 12-29. *)
Definition create_new_user (user_id : Z) (name : string) : M unit :=
  create_session_do_commit (
    let* user := get_user user_id in
    match user with
    | Some _ => ret tt
    | None =>
        add_user (new_User user_id name) >>
        let* settings := Settings_async_init {[ "user_id" := VInt user_id ]} in
        add_settings settings
    end).

(** db_funcs.py, lines 120-127: who won the game being stopped. *)
Definition resolve_who_win (is_resign : bool) (game : Game.t)
  (evaluation : EngineEvaluation.t) : option string :=
  if is_resign then
    Some (if String.eqb (Game.orientation game) "b" then "w" else "b")
  else if EngineEvaluation.is_end evaluation then
    EngineEvaluation.who_win evaluation
  else if String.eqb (EngineEvaluation.end_type evaluation) "checkmate" then
    Some (if Z.ltb 0 (EngineEvaluation.value evaluation) then "w" else "b")
  else
    None.

(** db_funcs.py, lines 142-161: the new counters, computed from the user
    row read at line 140 and written to every row of that user. *)
Definition record_outcome (user : User.t) (game : Game.t)
  (who_win : option string) : User.t -> User.t :=
  set_totals
    (User.total_games user + 1)
    (if str_eq_opt (Game.orientation game) who_win
     then User.total_wins user + 1 else User.total_wins user)
    (if negb (is_None who_win)
        && negb (str_eq_opt (Game.orientation game) who_win)
     then User.total_defeats user + 1 else User.total_defeats user)
    (if is_None who_win
     then User.total_draws user + 1 else User.total_draws user).

(** db_funcs.py, lines 103-164.  [user.total_games] on a missing user row
    is an [AttributeError] on [None]. *)
Definition stop_current_game (user_id : Z) (is_resign : bool)
  : M (option (EngineEvaluation.t * option string)) :=
  let* game := get_current_game user_id in
  match game with
  | None => ret None
  | Some game =>
      let* evaluation := get_engine_evaluation (Game.fen game) in
      let who_win := resolve_who_win is_resign game evaluation in
      create_session_do_commit (
        update_games (where_active_game user_id) (set_stopped who_win) >>
        let* user := get_user user_id in
        match user with
        | None => raise AttributeError
        | Some user =>
            update_users (where_user user_id)
              (record_outcome user game who_win)
        end) >>
      ret (Some (evaluation, who_win))
  end.

(** db_funcs.py, lines 32-57.  [isinstance(..., tuple)] holds exactly when
    [stop_current_game] returned a pair and not [None]. *)
Definition create_new_game (user_id : Z) (orientation : string) : M bool :=
  if negb (String.eqb orientation "w" || String.eqb orientation "b") then
    raise ValueError
  else
    let* stopped := stop_current_game user_id true in
    let is_was_old_game := negb (is_None stopped) in
    create_session_do_commit (add_game (new_Game user_id orientation)) >>
    ret is_was_old_game.

(** db_funcs.py, lines 167-201. *)
Definition update_current_game (user_id : Z) (prev_moves last_move : string)
  (check : option string) (fen : string) : M (option bool) :=
  let* game := get_current_game user_id in
  match game with
  | None => ret None
  | Some _ =>
      create_session_do_commit (
        update_games (where_active_game user_id)
          (set_position prev_moves last_move check fen)) >>
      ret (Some true)
  end.

(** *** Settings *)

(** Python's [min(a, b)] and [max(a, b)] against an [int] bound: on
    integers the smaller (larger) of the two, and comparing a [str] with
    an [int] is a [TypeError]. *)
Definition py_min (a : value) (b : Z) : result value :=
  match a with
  | VInt z => Return (VInt (Z.min z b))
  | VStr _ => Raise TypeError
  end.

Definition py_max (a : value) (b : Z) : result value :=
  match a with
  | VInt z => Return (VInt (Z.max z b))
  | VStr _ => Raise TypeError
  end.

(** db_funcs.py, lines 216-221: the expression under [try].  [None] is a
    [KeyError] of one of the subscripts, evaluated left to right:
    [params[param]], [limits[param]["max"]], the call of [min],
    [limits[param]["min"]], the call of [max]. *)
Definition clamped (limits : gmap string (gmap string Z))
  (params : gmap string value) (param : string) : option (result value) :=
  match params !! param with
  | None => None
  | Some v =>
      match limits !! param with
      | None => None
      | Some lim =>
          match lim !! "max" with
          | None => None
          | Some hi =>
              match py_min v hi with
              | Raise e => Some (Raise e)
              | Return m =>
                  match lim !! "min" with
                  | None => None
                  | Some lo => Some (py_max m lo)
                  end
              end
          end
      end
  end.

(** db_funcs.py, lines 214-223: the loop over [params.keys()]; a
    [KeyError] is passed over, any other exception leaves the loop. *)
Fixpoint clamp_loop (limits : gmap string (gmap string Z))
  (keys : list string) (params : gmap string value)
  : result (gmap string value) :=
  match keys with
  | [] => Return params
  | param :: keys' =>
      match clamped limits params param with
      | None => clamp_loop limits keys' params
      | Some (Return v) => clamp_loop limits keys' (<[param := v]> params)
      | Some (Raise e) => Raise e
      end
  end.

(** db_funcs.py, lines 204-233.  The update writes the columns named
    in [params] and keeps the others. *)
Definition update_settings (user_id : Z) (params : gmap string value)
  : M (gmap string value) :=
  let* limits := get_limits in
  let* params := lift (clamp_loop limits (map_to_list params).*1 params) in
  create_session_do_commit (
    update_settings_rows (where_settings user_id) (fun row => params ∪ row)) >>
  ret params.

End Operations.

(** ** The leaderboard *)

(** [order_by(sa.desc(User.total_wins), User.created_time)]: [a] may stand
    before [b] when it has more wins, or as many wins and a creation time
    that is not later. *)
Definition ranks_before (a b : User.t) : Prop :=
  User.total_wins b < User.total_wins a
  \/ (User.total_wins a = User.total_wins b
      /\ User.created_time a <= User.created_time b).

#[global] Instance ranks_before_dec : RelDecision ranks_before.
Proof. intros a b. unfold ranks_before. apply _. Defined.

(** Python's [x or d] on integers: [x] unless it is zero. *)
Definition py_or (x d : Z) : Z := if Z.eqb x 0 then d else x.

(** An [int] as a binary64 float.  The conversion goes through a 63-bit
    integer and is exact below [2^53] in absolute value, which covers the
    counters of an integer column. *)
Definition float_of_int (z : Z) : float :=
  if Z.ltb z 0
  then PrimFloat.opp (PrimFloat.of_uint63 (Uint63.of_Z (- z)))
  else PrimFloat.of_uint63 (Uint63.of_Z z).

(** Python's [a / b] on integers: a float, [ZeroDivisionError] when [b] is
    zero. *)
Definition py_truediv (a b : Z) : result float :=
  if Z.eqb b 0 then Raise ZeroDivisionError
  else Return (PrimFloat.div (float_of_int a) (float_of_int b)).

(** The integer nearest to [m * 2^e], the even one of two nearest. *)
Definition round_half_even (m : positive) (e : Z) : Z :=
  if Z.leb 0 e then Z.pos m * 2 ^ e
  else
    let d := 2 ^ (- e) in
    let q := Z.pos m / d in
    let r := Z.pos m mod d in
    if Z.ltb (2 * r) d then q
    else if Z.ltb d (2 * r) then q + 1
    else if Z.even q then q
    else q + 1.

(** Python's [round(x)] of a float: an [int], ties to even; an infinity is
    an [OverflowError], a NaN a [ValueError]. *)
Definition py_round (x : float) : result Z :=
  match Prim2SF x with
  | S754_zero _ => Return 0
  | S754_finite s m e =>
      Return (if s then - round_half_even m e else round_half_even m e)
  | S754_infinity _ => Raise OverflowError
  | S754_nan => Raise ValueError
  end.

(** [round(a / b * 100)] *)
Definition round_percent (a b : Z) : result Z :=
  match py_truediv a b with
  | Raise e => Raise e
  | Return q => py_round (PrimFloat.mul q (float_of_int 100))
  end.

(** db_funcs.py, line 260:
    [round(user.total_wins / (user.total_games or 1) * 100)]. *)
Definition win_rate (user : User.t) : result Z :=
  round_percent (User.total_wins user) (py_or (User.total_games user) 1).


Definition newline : string := String (Ascii.ascii_of_nat 10) "".

Section Leaderboard.

(** [Config.GLOBAL_TOP] and [Config.CACHE_GLOBAL_TOP]; [src/consts.py] is
    not among the sources. *)
Variable GLOBAL_TOP : nat.
Variable CACHE_GLOBAL_TOP : Z.

(** db_funcs.py, lines 243-250: the query.  A sort by [ranks_before] is one
    of the orders the statement allows. *)
Definition select_top (s : Store) : list User.t :=
  take GLOBAL_TOP (merge_sort ranks_before (users s)).

(** db_funcs.py, lines 252 and 257-261. *)
Definition format_line (user : User.t) (rate : Z) : string :=
  "[" +:+ User.name user +:+ "](tg://user?id=" +:+ pretty (User.user_id user)
  +:+ ") - " +:+ pretty (User.total_wins user)
  +:+ "/" +:+ pretty (User.total_draws user)
  +:+ "/" +:+ pretty (User.total_defeats user)
  +:+ "/" +:+ pretty (User.total_games user)
  +:+ " - " +:+ pretty rate +:+ "%".

(** The generator of lines 256-263, one line per user of the result. *)
Fixpoint format_lines (rows : list User.t) : result (list string) :=
  match rows with
  | [] => Return []
  | user :: rows' =>
      match win_rate user with
      | Raise e => Raise e
      | Return rate =>
          match format_lines rows' with
          | Raise e => Raise e
          | Return lines => Return (format_line user rate :: lines)
          end
      end
  end.

(** db_funcs.py, lines 236-269: the body of the function, which runs when
    the cache in front of it holds no fresh text. *)
Definition get_global_statistic : M string :=
  let* s := get_db in
  let* lines := lift (format_lines (select_top s)) in
  ret (String.concat newline
         ("*Ник - W/D/L/Total - WinRate*"
          :: lines
          ++ [newline +:+ "Статистика обновляется раз в "
              +:+ "*" +:+ pretty CACHE_GLOBAL_TOP +:+ " секунд*"])).

End Leaderboard.


(** ** Sequences of calls and the states they reach *)

(** One call of the interface, with the answers the collaborators give
    while it runs. *)
Inductive call : Type :=
| CreateNewUser (defaults : gmap string value) (utcnow : Z)
    (user_id : Z) (name : string)
| CreateNewGame (engine : string -> EngineEvaluation.t) (start_fen : string)
    (user_id : Z) (orientation : string)
| StopCurrentGame (engine : string -> EngineEvaluation.t)
    (user_id : Z) (is_resign : bool)
| UpdateCurrentGame (user_id : Z) (prev_moves last_move : string)
    (check : option string) (fen : string)
| UpdateSettings (limits : gmap string (gmap string Z))
    (user_id : Z) (params : gmap string value)
| GetGlobalStatistic (GLOBAL_TOP : nat) (CACHE_GLOBAL_TOP : Z).

(** The world a call leaves behind, whether it returns or raises. *)
Definition exec (c : call) (w : World) : World :=
  match c with
  | CreateNewUser defaults utcnow user_id name =>
      fst (create_new_user defaults utcnow user_id name w)
  | CreateNewGame engine start_fen user_id orientation =>
      fst (create_new_game engine start_fen user_id orientation w)
  | StopCurrentGame engine user_id is_resign =>
      fst (stop_current_game engine user_id is_resign w)
  | UpdateCurrentGame user_id prev_moves last_move check fen =>
      fst (update_current_game user_id prev_moves last_move check fen w)
  | UpdateSettings limits user_id params =>
      fst (update_settings limits user_id params w)
  | GetGlobalStatistic top ttl =>
      fst (get_global_statistic top ttl w)
  end.

Definition initial : World := mkWorld empty_store [].

(** The worlds reached from the empty store by calls made one after the
    other. *)
Inductive reachable : World -> Prop :=
| reachable_initial : reachable initial
| reachable_exec c w : reachable w -> reachable (exec c w).

(** ** Properties of a store *)

(** The rows the statement of [get_current_game] selects. *)
Definition active_games (s : Store) (user_id : Z) : list Game.t :=
  List.filter (where_active_game user_id) (games s).

Definition current_game (s : Store) (user_id : Z) : option Game.t :=
  scalar (active_games s user_id).

Definition find_user (s : Store) (user_id : Z) : option User.t :=
  scalar (List.filter (where_user user_id) (users s)).

Definition at_most_one_active (s : Store) : Prop :=
  forall user_id, (length (active_games s user_id) <= 1)%nat.

Definition valid_orientation (g : Game.t) : Prop :=
  Game.orientation g = "w" \/ Game.orientation g = "b".

(** The counters of a user row: none negative, and the games are the wins,
    defeats and draws together. *)
Definition counters_ok (u : User.t) : Prop :=
  0 <= User.total_wins u /\ 0 <= User.total_defeats u
  /\ 0 <= User.total_draws u
  /\ User.total_games u
     = User.total_wins u + User.total_defeats u + User.total_draws u.

(** The colour a player does not play. *)
Definition opposite (orientation : string) : string :=
  if String.eqb orientation "w" then "b" else "w".

(** The store after a stop that found the game [game] and the user row
    [user]: db_funcs.py, lines 130-137 and 142-162. *)
Definition stopped_store (s : Store) (user_id : Z) (who_win : option string)
  (game : Game.t) (user : User.t) : Store :=
  mkStore
    (update_where (where_user user_id) (record_outcome user game who_win)
       (users s))
    (settings s)
    (update_where (where_active_game user_id) (set_stopped who_win)
       (games s)).

(** The store after [db_sess.add(game)]. *)
Definition with_game (s : Store) (game : Game.t) : Store :=
  mkStore (users s) (settings s) (games s ++ [game]).

(** The winner [create_new_game] settles a displaced game with. *)
Definition resigned (engine : string -> EngineEvaluation.t) (game : Game.t)
  : option string :=
  resolve_who_win true game (engine (Game.fen game)).

(** ** What one call can do to the store *)

(** The writes of the interface, one constructor per committed unit of
    work. *)
Inductive transition : Store -> Store -> Prop :=
| transition_add_user s user row :
    find_user s (User.user_id user) = None ->
    counters_ok user ->
    transition s (mkStore (users s ++ [user]) (settings s ++ [row]) (games s))
| transition_stop s user_id who_win game user :
    current_game s user_id = Some game ->
    find_user s user_id = Some user ->
    transition s (stopped_store s user_id who_win game user)
| transition_add_game s game :
    current_game s (Game.user_id game) = None ->
    valid_orientation game ->
    transition s (with_game s game)
| transition_move s user_id prev_moves last_move check fen :
    transition s
      (mkStore (users s) (settings s)
         (update_where (where_active_game user_id)
            (set_position prev_moves last_move check fen) (games s)))
| transition_settings s rows :
    transition s (mkStore (users s) rows (games s)).

(** ** Invariants of the store *)

(** What holds of every store the interface can produce. *)
Record consistent (s : Store) : Prop := mkConsistent {
  consistent_active : at_most_one_active s;
  consistent_orientation : Forall valid_orientation (games s);
  consistent_counters : Forall counters_ok (users s);
  consistent_users : NoDup (List.map User.user_id (users s))
}.

(** The value of a parameter after the loop: the clamped one where the
    expression under [try] has a value, the given one where it ends in a
    [KeyError]. *)
Definition clamp_outcome (limits : gmap string (gmap string Z))
  (params : gmap string value) (param : string) : option value :=
  match clamped limits params param with
  | Some (Return v) => Some v
  | _ => params !! param
  end.

(** ** Calls that overlap *)

(** The functions are coroutines: one that awaits a collaborator gives way
    to the others, and the code between two awaits runs without a break.  A
    call of [stop_current_game] or [create_new_game] that has read an active
    game at line 115 waits at line 119 for the evaluation; a call of
    [create_new_user] that has found no user at line 21 waits at line 28 for
    the defaults.  [update_settings] waits at its first line, before it
    touches anything. *)
Inductive awaiting : Type :=
| AwaitingStop (user_id : Z) (is_resign : bool) (game : Game.t)
| AwaitingStart (start_fen : string) (user_id : Z) (orientation : string)
    (game : Game.t)
| AwaitingDefaults (utcnow : Z) (user_id : Z) (name : string).

(** db_funcs.py, lines 120-164, run with the answer of the evaluation
    service on the store as it is by then; [game] is the row read before
    the wait. *)
Definition stop_current_game_resume (user_id : Z) (is_resign : bool)
  (game : Game.t) (evaluation : EngineEvaluation.t)
  : M (option (EngineEvaluation.t * option string)) :=
  let who_win := resolve_who_win is_resign game evaluation in
  create_session_do_commit (
    update_games (where_active_game user_id) (set_stopped who_win) >>
    let* user := get_user user_id in
    match user with
    | None => raise AttributeError
    | Some user =>
        update_users (where_user user_id) (record_outcome user game who_win)
    end) >>
  ret (Some (evaluation, who_win)).

(** db_funcs.py, lines 44-57, from the same point on. *)
Definition create_new_game_resume (start_fen : string) (user_id : Z)
  (orientation : string) (game : Game.t) (evaluation : EngineEvaluation.t)
  : M bool :=
  let* stopped := stop_current_game_resume user_id true game evaluation in
  let is_was_old_game := negb (is_None stopped) in
  create_session_do_commit (add_game (new_Game start_fen user_id orientation)) >>
  ret is_was_old_game.

(** db_funcs.py, lines 28-29 and the commit of the user row added at line
    25, with the answer of the defaults service. *)
Definition create_new_user_resume (defaults : gmap string value) (utcnow : Z)
  (user_id : Z) (name : string) : M unit :=
  create_session_do_commit (
    add_user (new_User utcnow user_id name) >>
    let* settings :=
      Settings_async_init defaults {[ "user_id" := VInt user_id ]} in
    add_settings settings).

(** Where a call gives way, if it does, in the world it starts in. *)
Definition suspends (c : call) (w : World) : option awaiting :=
  match c with
  | StopCurrentGame _ user_id is_resign =>
      option_map (AwaitingStop user_id is_resign) (current_game (db w) user_id)
  | CreateNewGame _ start_fen user_id orientation =>
      if negb (String.eqb orientation "w" || String.eqb orientation "b")
      then None
      else option_map (AwaitingStart start_fen user_id orientation)
             (current_game (db w) user_id)
  | CreateNewUser _ utcnow user_id name =>
      match find_user (db w) user_id with
      | Some _ => None
      | None => Some (AwaitingDefaults utcnow user_id name)
      end
  | _ => None
  end.

(** The request a suspended call has sent. *)
Definition requested (a : awaiting) (w : World) : World :=
  match a with
  | AwaitingStop _ _ game | AwaitingStart _ _ _ game =>
      mkWorld (db w) (engine_calls w ++ [Game.fen game])
  | AwaitingDefaults _ _ _ => w
  end.

(** The world a suspended call leaves behind when it goes on with the
    answers [evaluation] and [defaults]. *)
Definition resume (a : awaiting) (evaluation : EngineEvaluation.t)
  (defaults : gmap string value) (w : World) : World :=
  match a with
  | AwaitingStop user_id is_resign game =>
      fst (stop_current_game_resume user_id is_resign game evaluation w)
  | AwaitingStart start_fen user_id orientation game =>
      fst (create_new_game_resume start_fen user_id orientation game
             evaluation w)
  | AwaitingDefaults utcnow user_id name =>
      fst (create_new_user_resume defaults utcnow user_id name w)
  end.

(** The worlds reached when calls overlap, with the calls that wait. *)
Inductive overlapped : World -> list awaiting -> Prop :=
| overlapped_initial : overlapped initial []
| overlapped_exec c w pool :
    overlapped w pool -> suspends c w = None ->
    overlapped (exec c w) pool
| overlapped_suspend c w pool a :
    overlapped w pool -> suspends c w = Some a ->
    overlapped (requested a w) (a :: pool)
| overlapped_resume w pool i a evaluation defaults :
    overlapped w pool -> pool !! i = Some a ->
    overlapped (resume a evaluation defaults w) (delete i pool).

(** ** Samples for the concrete instances below *)

Definition sample_evaluation : EngineEvaluation.t :=
  EngineEvaluation.mk 35 "cp" false None (400, 500, 100).

Definition sample_engine (fen : string) : EngineEvaluation.t :=
  sample_evaluation.

Definition mate_engine (fen : string) : EngineEvaluation.t :=
  EngineEvaluation.mk (-7) "checkmate" false None (0, 0, 1000).

Definition sample_fen : string :=
  "rnbqkbnr/pppppppp/8/8/8/8/PPPPPPPP/RNBQKBNR w KQkq - 0 1".

Definition sample_defaults : gmap string value :=
  {[ "depth" := VInt 15; "elo" := VInt 1500; "colors" := VStr "brown" ]}.

Definition sample_limits : gmap string (gmap string Z) :=
  {[ "depth" := {[ "min" := 1; "max" := 20 ]};
     "elo" := {[ "min" := 100; "max" := 3000 ]} ]}.

(** A registered user who has started a game as white. *)
Definition playing : World :=
  exec (CreateNewGame sample_engine sample_fen 7 "w")
    (exec (CreateNewUser sample_defaults 1000 7 "ann") initial).

(** The same user after a second start, which displaced the first game. *)
Definition replaying : World :=
  exec (CreateNewGame sample_engine sample_fen 7 "b") playing.

(** User 7, with three wins and a defeat in four games, resigns as white:
    the counters become three wins, two defeats, five games. *)
Definition resigning : World :=
  mkWorld
    (mkStore [User.mk 7 "ann" 1000 4 3 1 0] []
       [Game.mk 7 "w" true "e2e4 e7e5" (Some "e7e5") None sample_fen None])
    [].

(** Depth 99 is cut to 20, elo 50 is raised to 100, the colours pass. *)
Definition sample_params : gmap string value :=
  {[ "depth" := VInt 99; "elo" := VInt 50; "colors" := VStr "green" ]}.

(** Four users; cy and bob have three wins each, cy registered first. *)
Definition ranked : World :=
  mkWorld
    (mkStore
       [User.mk 1 "ann" 100 8 1 7 0; User.mk 2 "bob" 90 8 3 4 1;
        User.mk 3 "cy" 80 3 3 0 0; User.mk 4 "dan" 70 0 0 0 0]
       [] [])
    [].

(** ** The writes of a call, row by row *)

(** The committed units of work with what the code knows when it runs
    them: a user row is added with zero counters when the id has none, a
    stop closes the rows of the game that [get_current_game] found, a game
    row is added when the user has no active game, a move is written when
    there is an active game, and [update_settings] lays one map over the
    rows of the user. *)
Inductive write : Store -> Store -> Prop :=
| write_new_user s utcnow user_id name row :
    find_user s user_id = None ->
    write s
      (mkStore (users s ++ [User.mk user_id name utcnow 0 0 0 0])
         (settings s ++ [row]) (games s))
| write_stop s user_id who_win game user :
    current_game s user_id = Some game ->
    find_user s user_id = Some user ->
    write s (stopped_store s user_id who_win game user)
| write_new_game s start_fen user_id orientation :
    current_game s user_id = None ->
    orientation = "w" \/ orientation = "b" ->
    write s
      (with_game s
         (Game.mk user_id orientation true "" None None start_fen None))
| write_move s user_id prev_moves last_move check fen game :
    current_game s user_id = Some game ->
    write s
      (mkStore (users s) (settings s)
         (update_where (where_active_game user_id)
            (set_position prev_moves last_move check fen) (games s)))
| write_settings s user_id applied :
    write s
      (mkStore (users s)
         (update_where (where_settings user_id) (fun row => applied ∪ row)
            (settings s))
         (games s)).

(** The positions a call sends to the evaluation service: that of the
    active game, from a stop or from a start with a valid orientation. *)
Definition requests (c : call) (w : World) : list string :=
  match c with
  | StopCurrentGame _ user_id _ =>
      match current_game (db w) user_id with
      | Some game => [Game.fen game]
      | None => []
      end
  | CreateNewGame _ _ user_id orientation =>
      if negb (String.eqb orientation "w" || String.eqb orientation "b")
      then []
      else
        match current_game (db w) user_id with
        | Some game => [Game.fen game]
        | None => []
        end
  | _ => []
  end.

(** What a later store keeps of a game row: the user and the orientation
    always, and the whole row once the game is stopped. *)
Definition game_kept (g g' : Game.t) : Prop :=
  Game.user_id g' = Game.user_id g
  /\ Game.orientation g' = Game.orientation g
  /\ (Game.is_active g = false -> g' = g).

(** What a later store keeps of a user row: the id, the name and the
    creation time, and counters that have not gone down. *)
Definition user_kept (u u' : User.t) : Prop :=
  User.user_id u' = User.user_id u
  /\ User.name u' = User.name u
  /\ User.created_time u' = User.created_time u
  /\ User.total_games u <= User.total_games u'
  /\ User.total_wins u <= User.total_wins u'
  /\ User.total_defeats u <= User.total_defeats u'
  /\ User.total_draws u <= User.total_draws u'.

(** Every row of a table is still there, at its place, and related to what
    it was. *)
Definition rows_kept {A} (kept : A -> A -> Prop) (rows rows' : list A) : Prop :=
  forall i r, rows !! i = Some r -> exists r', rows' !! i = Some r' /\ kept r r'.

(** A game that is active has no winner yet. *)
Definition unsettled (g : Game.t) : Prop :=
  Game.is_active g = true -> Game.who_win g = None.

(** The history of a user: the rows of the stopped games, and how each of
    them ended for the user, read off the row as lines 146-160 of
    db_funcs.py read it off the game being stopped. *)
Definition finished (user_id : Z) (g : Game.t) : bool :=
  Z.eqb (Game.user_id g) user_id && negb (Game.is_active g).

Definition won (g : Game.t) : bool :=
  str_eq_opt (Game.orientation g) (Game.who_win g).

Definition lost (g : Game.t) : bool :=
  negb (is_None (Game.who_win g)) && negb (won g).

Definition drawn (g : Game.t) : bool := is_None (Game.who_win g).

Definition played (g : Game.t) : bool := true.

(** The number of stopped games of a user with a given outcome. *)
Definition tally (s : Store) (user_id : Z) (outcome : Game.t -> bool) : Z :=
  Z.of_nat
    (length
       (List.filter (fun g => finished user_id g && outcome g) (games s))).

(** The counters of a user row are the tallies of the user's history. *)
Definition tallied (s : Store) (u : User.t) : Prop :=
  User.total_games u = tally s (User.user_id u) played
  /\ User.total_wins u = tally s (User.user_id u) won
  /\ User.total_defeats u = tally s (User.user_id u) lost
  /\ User.total_draws u = tally s (User.user_id u) drawn.

Definition history_counted (s : Store) : Prop :=
  Forall (tallied s) (users s)
  /\ (forall user_id outcome,
        find_user s user_id = None -> tally s user_id outcome = 0).

(** settings.py, lines 51-65: the dictionary [get_params] builds from a
    settings row.  The value of a column the row does not hold is [None];
    "with_engine" is the constant [True]. *)
Definition Settings_get_params (row : Settings) : gmap string (option value) :=
  list_to_map
    [("min_time", row !! "min_time");
     ("max_time", row !! "max_time");
     ("threads", row !! "threads");
     ("depth", row !! "depth");
     ("ram_hash", row !! "ram_hash");
     ("skill_level", row !! "skill_level");
     ("elo", row !! "elo");
     ("with_coords", row !! "with_coords");
     ("colors", row !! "colors");
     ("with_engine", Some (VInt 1));
     ("size", row !! "size")].

(** The columns of a settings row that [get_params] reads. *)
Definition params_columns : list string :=
  ["min_time"; "max_time"; "threads"; "depth"; "ram_hash"; "skill_level";
   "elo"; "with_coords"; "colors"; "size"].

(** The row [get_settings] finds in a store. *)
Definition find_settings (s : Store) (user_id : Z) : option Settings :=
  scalar (List.filter (where_settings user_id) (settings s)).

(** The user a call is about; the leaderboard is about none. *)
Definition call_user (c : call) : option Z :=
  match c with
  | CreateNewUser _ _ user_id _
  | CreateNewGame _ _ user_id _
  | StopCurrentGame _ user_id _
  | UpdateCurrentGame user_id _ _ _ _
  | UpdateSettings _ user_id _ => Some user_id
  | GetGlobalStatistic _ _ => None
  end.

(** The rows of the other users are, each at its place, as they were. *)
Definition isolated (user_id : Z) (s s' : Store) : Prop :=
  (forall i g,
     games s !! i = Some g -> Game.user_id g <> user_id ->
     games s' !! i = Some g)
  /\ (forall i u,
        users s !! i = Some u -> User.user_id u <> user_id ->
        users s' !! i = Some u)
  /\ (forall i r,
        settings s !! i = Some r -> where_settings user_id r = false ->
        settings s' !! i = Some r).

(** game.py, lines 39-48: the message [stop_game] builds from the
    evaluation it was given at line 38. *)
Definition stop_game_message (evaluation : EngineEvaluation.t) : string :=
  let message (result : string) := "Игра закончилась *" +:+ result +:+ "!*" in
  if String.eqb (EngineEvaluation.end_type evaluation) "checkmate" then
    if EngineEvaluation.is_end evaluation then
      message
        ("победой "
         +:+ (if str_eq_opt "w" (EngineEvaluation.who_win evaluation)
              then "белых" else "чёрных"))
    else
      message
        ("победой "
         +:+ (if Z.ltb 0 (EngineEvaluation.value evaluation)
              then "белых" else "чёрных")
         +:+ " (mate in "
         +:+ pretty (Z.abs (EngineEvaluation.value evaluation)) +:+ ")")
  else
    message "ничьёй".

(** * Facts *)

(** ** The operations as functions of the store *)

Section Runs.

Variable engine : string -> EngineEvaluation.t.
Variable w : World.
Variable user_id : Z.

Lemma get_user_run :
  get_user user_id w = (w, Return (find_user (db w) user_id)).
Proof. reflexivity. Qed.

Lemma get_current_game_run :
  get_current_game user_id w = (w, Return (current_game (db w) user_id)).
Proof. reflexivity. Qed.

Lemma stop_current_game_none is_resign :
  current_game (db w) user_id = None ->
  stop_current_game engine user_id is_resign w = (w, Return None).
Proof.
  intros Hnone. unfold stop_current_game, bind.
  rewrite get_current_game_run, Hnone. reflexivity.
Qed.

Lemma stop_current_game_some is_resign game user :
  current_game (db w) user_id = Some game ->
  find_user (db w) user_id = Some user ->
  let evaluation := engine (Game.fen game) in
  let who_win := resolve_who_win is_resign game evaluation in
  stop_current_game engine user_id is_resign w
  = (mkWorld (stopped_store (db w) user_id who_win game user)
       (engine_calls w ++ [Game.fen game]),
     Return (Some (evaluation, who_win))).
Proof.
  intros Hgame Huser. unfold stop_current_game, bind.
  rewrite get_current_game_run, Hgame.
  unfold create_session_do_commit. cbn.
  unfold find_user in Huser. rewrite Huser. reflexivity.
Qed.

Lemma stop_current_game_no_user is_resign game :
  current_game (db w) user_id = Some game ->
  find_user (db w) user_id = None ->
  stop_current_game engine user_id is_resign w
  = (mkWorld (db w) (engine_calls w ++ [Game.fen game]),
     Raise AttributeError).
Proof.
  intros Hgame Huser. unfold stop_current_game, bind.
  rewrite get_current_game_run, Hgame.
  unfold create_session_do_commit. cbn.
  unfold find_user in Huser. rewrite Huser. reflexivity.
Qed.

Variable start_fen : string.
Variable orientation : string.

Lemma create_new_game_invalid :
  orientation <> "w" -> orientation <> "b" ->
  create_new_game engine start_fen user_id orientation w
  = (w, Raise ValueError).
Proof.
  intros Hw%String.eqb_neq Hb%String.eqb_neq. unfold create_new_game.
  rewrite Hw, Hb. reflexivity.
Qed.

Hypothesis orientation_valid : orientation = "w" \/ orientation = "b".

Lemma orientation_check :
  negb (String.eqb orientation "w" || String.eqb orientation "b") = false.
Proof. destruct orientation_valid as [-> | ->]; reflexivity. Qed.

Lemma create_new_game_fresh :
  current_game (db w) user_id = None ->
  create_new_game engine start_fen user_id orientation w
  = (mkWorld (with_game (db w) (new_Game start_fen user_id orientation))
       (engine_calls w),
     Return false).
Proof.
  intros Hnone. unfold create_new_game. rewrite orientation_check.
  unfold bind. rewrite (stop_current_game_none true Hnone). reflexivity.
Qed.

Lemma create_new_game_displace game user :
  current_game (db w) user_id = Some game ->
  find_user (db w) user_id = Some user ->
  create_new_game engine start_fen user_id orientation w
  = (mkWorld
       (with_game
          (stopped_store (db w) user_id (resigned engine game) game user)
          (new_Game start_fen user_id orientation))
       (engine_calls w ++ [Game.fen game]),
     Return true).
Proof.
  intros Hgame Huser. unfold create_new_game. rewrite orientation_check.
  unfold bind.
  pose proof (stop_current_game_some true game user Hgame Huser) as Hstop.
  cbv zeta in Hstop. rewrite Hstop. reflexivity.
Qed.

Lemma create_new_game_no_user game :
  current_game (db w) user_id = Some game ->
  find_user (db w) user_id = None ->
  create_new_game engine start_fen user_id orientation w
  = (mkWorld (db w) (engine_calls w ++ [Game.fen game]),
     Raise AttributeError).
Proof.
  intros Hgame Huser. unfold create_new_game. rewrite orientation_check.
  unfold bind.
  rewrite (stop_current_game_no_user true game Hgame Huser). reflexivity.
Qed.

End Runs.

Section MoreRuns.

Variable w : World.
Variable user_id : Z.

Lemma update_current_game_none prev_moves last_move check fen :
  current_game (db w) user_id = None ->
  update_current_game user_id prev_moves last_move check fen w
  = (w, Return None).
Proof.
  intros Hnone. unfold update_current_game, bind.
  rewrite get_current_game_run, Hnone. reflexivity.
Qed.

Lemma update_current_game_some prev_moves last_move check fen game :
  current_game (db w) user_id = Some game ->
  update_current_game user_id prev_moves last_move check fen w
  = (mkWorld
       (mkStore (users (db w)) (settings (db w))
          (update_where (where_active_game user_id)
             (set_position prev_moves last_move check fen) (games (db w))))
       (engine_calls w),
     Return (Some true)).
Proof.
  intros Hgame. unfold update_current_game, bind.
  rewrite get_current_game_run, Hgame. reflexivity.
Qed.

Lemma create_new_user_exists defaults utcnow name user :
  find_user (db w) user_id = Some user ->
  create_new_user defaults utcnow user_id name w = (w, Return tt).
Proof.
  intros Huser. unfold create_new_user, create_session_do_commit, bind.
  rewrite get_user_run, Huser. reflexivity.
Qed.

Lemma create_new_user_new defaults utcnow name :
  find_user (db w) user_id = None ->
  create_new_user defaults utcnow user_id name w
  = (mkWorld
       (mkStore (users (db w) ++ [new_User utcnow user_id name])
          (settings (db w) ++ [{[ "user_id" := VInt user_id ]} ∪ defaults])
          (games (db w)))
       (engine_calls w),
     Return tt).
Proof.
  intros Huser. unfold create_new_user, create_session_do_commit, bind.
  rewrite get_user_run, Huser. reflexivity.
Qed.

Lemma update_settings_run limits params :
  update_settings limits user_id params w
  = match clamp_loop limits (map_to_list params).*1 params with
    | Return params' =>
        (mkWorld
           (mkStore (users (db w))
              (update_where (where_settings user_id)
                 (fun row => params' ∪ row) (settings (db w)))
              (games (db w)))
           (engine_calls w),
         Return params')
    | Raise e => (w, Raise e)
    end.
Proof.
  unfold update_settings, bind, get_limits, lift. cbn.
  destruct (clamp_loop _ _ _); reflexivity.
Qed.

Lemma get_global_statistic_world top ttl :
  fst (get_global_statistic top ttl w) = w.
Proof.
  unfold get_global_statistic, bind, lift. cbn.
  destruct (format_lines _); reflexivity.
Qed.

End MoreRuns.

(** ** Facts about rows and statements *)

Section Rows.

Context {A : Type}.
Implicit Types (p q : A -> bool) (f : A -> A) (rows : list A).

Lemma update_where_length p f rows :
  length (update_where p f rows) = length rows.
Proof. apply List.length_map. Qed.

Lemma update_where_app p f rows rows' :
  update_where p f (rows ++ rows')
  = update_where p f rows ++ update_where p f rows'.
Proof. apply List.map_app. Qed.

(** A statement whose new rows no longer satisfy [q], and whose untouched
    rows satisfy [q] only if they were selected, leaves no row in [q]. *)
Lemma filter_update_where_none p q f rows :
  (forall r, p r = true -> q (f r) = false) ->
  (forall r, p r = false -> q r = false) ->
  List.filter q (update_where p f rows) = [].
Proof.
  intros Hset Hkeep. induction rows as [|r rows IH]; [reflexivity|].
  cbn. destruct (p r) eqn:Hp.
  - rewrite (Hset r Hp). exact IH.
  - rewrite (Hkeep r Hp). exact IH.
Qed.

(** A statement that does not touch the rows of [q] leaves the selection
    by [q] as it was. *)
Lemma filter_update_where_other p q f rows :
  (forall r, p r = true -> q r = false /\ q (f r) = false) ->
  List.filter q (update_where p f rows) = List.filter q rows.
Proof.
  intros Hother. induction rows as [|r rows IH]; [reflexivity|].
  cbn. destruct (p r) eqn:Hp.
  - destruct (Hother r Hp) as [-> ->]. exact IH.
  - destruct (q r); [f_equal|]; exact IH.
Qed.

(** A statement whose values do not change membership in [q] keeps the
    number of rows in [q]. *)
Lemma filter_update_where_same p q f rows :
  (forall r, q (f r) = q r) ->
  List.filter q (update_where p f rows)
  = update_where p f (List.filter q rows).
Proof.
  intros Hsame. induction rows as [|r rows IH]; [reflexivity|].
  cbn. destruct (p r) eqn:Hp.
  - rewrite Hsame. destruct (q r); cbn; rewrite ?Hp; [f_equal|]; exact IH.
  - destruct (q r); cbn; rewrite ?Hp; [f_equal|]; exact IH.
Qed.

Lemma Forall_update_where (P : A -> Prop) p f rows :
  (forall r, P r -> p r = true -> P (f r)) ->
  Forall P rows -> Forall P (update_where p f rows).
Proof.
  intros Hf Hall. induction Hall as [|r rows Hr _ IH]; cbn; constructor.
  - destruct (p r) eqn:Hp; auto.
  - exact IH.
Qed.

Lemma scalar_filter_In p rows r :
  scalar (List.filter p rows) = Some r -> In r rows /\ p r = true.
Proof.
  intros Hr. apply List.filter_In.
  destruct (List.filter p rows) as [|r' l]; [discriminate|].
  injection Hr as ->. now left.
Qed.

Lemma scalar_filter_None p rows :
  scalar (List.filter p rows) = None -> List.filter p rows = [].
Proof. destruct (List.filter p rows); [reflexivity|discriminate]. Qed.

End Rows.

Lemma where_active_game_stopped user_id who_win g :
  where_active_game user_id (set_stopped who_win g) = false.
Proof. unfold where_active_game. cbn. apply andb_false_r. Qed.

Lemma where_active_game_other user_id user_id' g :
  user_id <> user_id' ->
  where_active_game user_id g = true -> where_active_game user_id' g = false.
Proof.
  unfold where_active_game. intros Hne [Hid _]%andb_prop.
  apply Z.eqb_eq in Hid. apply andb_false_intro1. apply Z.eqb_neq. congruence.
Qed.

Lemma where_active_game_position user_id prev_moves last_move check fen g :
  where_active_game user_id (set_position prev_moves last_move check fen g)
  = where_active_game user_id g.
Proof. reflexivity. Qed.

(** After the first statement of [stop_current_game] the user has no active
    game. *)
Lemma active_games_stopped user_id who_win rows :
  List.filter (where_active_game user_id)
    (update_where (where_active_game user_id) (set_stopped who_win) rows)
  = [].
Proof.
  apply filter_update_where_none.
  - intros. apply where_active_game_stopped.
  - auto.
Qed.

(** ... and the active games of the other users are as before. *)
Lemma active_games_stopped_other user_id user_id' who_win rows :
  user_id <> user_id' ->
  List.filter (where_active_game user_id')
    (update_where (where_active_game user_id) (set_stopped who_win) rows)
  = List.filter (where_active_game user_id') rows.
Proof.
  intros Hne. apply filter_update_where_other. intros g Hg. split.
  - eapply where_active_game_other; eauto.
  - apply where_active_game_stopped.
Qed.

(** ** What one call can do to the store *)

Lemma current_game_stopped s user_id who_win game user :
  current_game (stopped_store s user_id who_win game user) user_id = None.
Proof.
  unfold current_game, active_games, stopped_store. cbn.
  now rewrite active_games_stopped.
Qed.

(** Every call is a sequence of at most two such writes. *)
Lemma exec_transitions c w : rtc transition (db w) (db (exec c w)).
Proof.
  destruct c as [defaults utcnow user_id name
                |engine start_fen user_id orientation
                |engine user_id is_resign
                |user_id prev_moves last_move check fen
                |limits user_id params
                |top ttl]; cbn [exec].
  - destruct (find_user (db w) user_id) as [user|] eqn:Huser.
    + rewrite (create_new_user_exists _ _ _ _ _ user Huser). constructor.
    + rewrite (create_new_user_new _ _ _ _ _ Huser). cbn.
      apply rtc_once.
      apply (transition_add_user (db w) (new_User utcnow user_id name)).
      * exact Huser.
      * unfold counters_ok. cbn. lia.
  - destruct (String.eqb_spec orientation "w") as [Hw|Hw];
      [|destruct (String.eqb_spec orientation "b") as [Hb|Hb]].
    3: { rewrite create_new_game_invalid by assumption. constructor. }
    all: assert (Hvalid : orientation = "w" \/ orientation = "b") by tauto.
    all: destruct (current_game (db w) user_id) as [game|] eqn:Hgame.
    all: try (rewrite (create_new_game_fresh _ _ _ _ _ Hvalid Hgame); cbn;
              apply rtc_once;
              apply (transition_add_game (db w)
                       (new_Game start_fen user_id orientation));
              [exact Hgame | exact Hvalid]).
    all: destruct (find_user (db w) user_id) as [user|] eqn:Huser.
    all: try (rewrite (create_new_game_no_user _ _ _ _ _ Hvalid _ Hgame Huser);
              constructor).
    all: rewrite (create_new_game_displace _ _ _ _ _ Hvalid _ _ Hgame Huser);
      cbn.
    all: eapply rtc_l;
      [apply (transition_stop _ _ (resigned engine game) _ _ Hgame Huser)|].
    all: apply rtc_once.
    all: apply (transition_add_game _ (new_Game start_fen user_id orientation));
      [apply current_game_stopped | exact Hvalid].
  - destruct (current_game (db w) user_id) as [game|] eqn:Hgame.
    + destruct (find_user (db w) user_id) as [user|] eqn:Huser.
      * pose proof (stop_current_game_some engine _ _ is_resign _ _ Hgame Huser)
          as Hstop.
        cbv zeta in Hstop. rewrite Hstop. cbn.
        apply rtc_once. now apply transition_stop.
      * rewrite (stop_current_game_no_user engine _ _ is_resign _ Hgame Huser).
        constructor.
    + rewrite (stop_current_game_none engine _ _ is_resign Hgame). constructor.
  - destruct (current_game (db w) user_id) as [game|] eqn:Hgame.
    + rewrite (update_current_game_some _ _ _ _ _ _ _ Hgame). cbn.
      apply rtc_once. apply transition_move.
    + rewrite (update_current_game_none _ _ _ _ _ _ Hgame). constructor.
  - rewrite update_settings_run. destruct (clamp_loop _ _ _); cbn.
    + apply rtc_once. apply transition_settings.
    + constructor.
  - rewrite get_global_statistic_world. constructor.
Qed.

(** ** Invariants of the store *)

Lemma active_games_app s game user_id :
  active_games (with_game s game) user_id
  = active_games s user_id
    ++ (if where_active_game user_id game then [game] else []).
Proof. unfold active_games, with_game. cbn. now rewrite List.filter_app. Qed.

Lemma at_most_one_active_transition s s' :
  transition s s' -> at_most_one_active s -> at_most_one_active s'.
Proof.
  intros Hstep Hone uid. specialize (Hone uid).
  destruct Hstep as [s user row _ _
                    |s user_id who_win game user _ _
                    |s game Hnone _
                    |s user_id prev_moves last_move check fen
                    |s rows]; try exact Hone.
  - unfold active_games, stopped_store. cbn.
    destruct (Z.eq_dec user_id uid) as [->|Hne].
    + rewrite active_games_stopped. cbn. lia.
    + now rewrite active_games_stopped_other.
  - rewrite active_games_app, List.length_app.
    destruct (where_active_game uid game) eqn:Hsel; cbn [length]; [|lia].
    apply andb_prop in Hsel as [Hid%Z.eqb_eq _]. rewrite Hid in Hnone.
    unfold current_game in Hnone. apply scalar_filter_None in Hnone.
    unfold active_games. rewrite Hnone. cbn. lia.
  - unfold active_games. cbn.
    rewrite filter_update_where_same by (intros; apply where_active_game_position).
    now rewrite update_where_length.
Qed.

Lemma valid_orientation_transition s s' :
  transition s s' ->
  Forall valid_orientation (games s) -> Forall valid_orientation (games s').
Proof.
  intros Hstep Hall.
  destruct Hstep as [s user row _ _
                    |s user_id who_win game user _ _
                    |s game _ Hvalid
                    |s user_id prev_moves last_move check fen
                    |s rows]; cbn; try exact Hall.
  - apply Forall_update_where; [|exact Hall]. auto.
  - apply Forall_app. split; [exact Hall|]. now constructor.
  - apply Forall_update_where; [|exact Hall]. auto.
Qed.

(** The counters after a stop, whoever won: one more game, and one more of
    exactly one of wins, defeats and draws. *)
Lemma record_outcome_counters user game who_win row :
  counters_ok user -> counters_ok (record_outcome user game who_win row).
Proof.
  unfold counters_ok, record_outcome. cbn.
  destruct who_win as [winner|]; cbn;
    [destruct (String.eqb (Game.orientation game) winner)|]; cbn; lia.
Qed.

Lemma counters_ok_transition s s' :
  transition s s' ->
  Forall counters_ok (users s) -> Forall counters_ok (users s').
Proof.
  intros Hstep Hall.
  destruct Hstep as [s user row _ Hok
                    |s user_id who_win game user _ Huser
                    |s game _ _
                    |s user_id prev_moves last_move check fen
                    |s rows]; cbn; try exact Hall.
  - apply Forall_app. split; [exact Hall|]. now constructor.
  - apply Forall_update_where; [|exact Hall]. intros row _ _.
    apply record_outcome_counters.
    apply scalar_filter_In in Huser as [Hin _].
    rewrite List.Forall_forall in Hall. now apply Hall.
Qed.

Lemma update_where_user_ids p user game who_win rows :
  List.map User.user_id (update_where p (record_outcome user game who_win) rows)
  = List.map User.user_id rows.
Proof.
  unfold update_where. rewrite List.map_map. apply List.map_ext.
  intros row. now destruct (p row).
Qed.

Lemma find_user_None_not_In s user_id :
  find_user s user_id = None -> ~ In user_id (List.map User.user_id (users s)).
Proof.
  intros Hnone%scalar_filter_None Hin.
  apply List.in_map_iff in Hin as (row & Hid & Hin).
  assert (Hsel : In row (List.filter (where_user user_id) (users s))).
  { apply List.filter_In. split; [exact Hin|]. now apply Z.eqb_eq. }
  rewrite Hnone in Hsel. destruct Hsel.
Qed.

Lemma unique_users_transition s s' :
  transition s s' ->
  NoDup (List.map User.user_id (users s)) ->
  NoDup (List.map User.user_id (users s')).
Proof.
  intros Hstep Hnodup.
  destruct Hstep as [s user row Hnone _
                    |s user_id who_win game user _ _
                    |s game _ _
                    |s user_id prev_moves last_move check fen
                    |s rows]; cbn; try exact Hnodup.
  - rewrite List.map_app. cbn. apply NoDup_app. repeat split.
    + exact Hnodup.
    + intros uid Hin [Hid|[]]%list_elem_of_In. subst uid.
      apply list_elem_of_In in Hin. now apply find_user_None_not_In in Hnone.
    + apply NoDup_singleton.
  - now rewrite update_where_user_ids.
Qed.

Lemma consistent_transition s s' :
  transition s s' -> consistent s -> consistent s'.
Proof.
  intros Hstep [Hone Hor Hcnt Huniq]. split.
  - eapply at_most_one_active_transition; eauto.
  - eapply valid_orientation_transition; eauto.
  - eapply counters_ok_transition; eauto.
  - eapply unique_users_transition; eauto.
Qed.

Lemma consistent_empty : consistent empty_store.
Proof.
  split.
  - intros uid. cbn. lia.
  - constructor.
  - constructor.
  - constructor.
Qed.

Lemma consistent_exec c w : consistent (db w) -> consistent (db (exec c w)).
Proof.
  intros Hcons. induction (exec_transitions c w) as [|s1 s2 s3 Hstep _ IH].
  - exact Hcons.
  - apply IH. eapply consistent_transition; eauto.
Qed.

Lemma reachable_consistent w : reachable w -> consistent (db w).
Proof.
  induction 1 as [|c w _ IH].
  - apply consistent_empty.
  - now apply consistent_exec.
Qed.

(** ** Reading the store after a stop *)

Lemma where_user_record_outcome user_id user game who_win row :
  where_user user_id (record_outcome user game who_win row)
  = where_user user_id row.
Proof. reflexivity. Qed.

Lemma scalar_update_where {A} (p : A -> bool) (f : A -> A) rows :
  scalar (update_where p f rows)
  = option_map (fun r => if p r then f r else r) (scalar rows).
Proof. now destruct rows. Qed.

(** The row [get_user] finds after a stop: for the user of the stopped game
    the row found before with the new counters, for any other user the row
    found before. *)
Lemma find_user_stopped s user_id who_win game user user_id' :
  find_user (stopped_store s user_id who_win game user) user_id'
  = if Z.eqb user_id' user_id
    then option_map (record_outcome user game who_win) (find_user s user_id)
    else find_user s user_id'.
Proof.
  unfold find_user, stopped_store. cbn.
  rewrite filter_update_where_same
    by (intros; apply where_user_record_outcome).
  rewrite scalar_update_where.
  destruct (Z.eqb_spec user_id' user_id) as [->|Hne].
  - destruct (scalar _) as [row|] eqn:Hrow; [|reflexivity].
    apply scalar_filter_In in Hrow as [_ Hsel]. cbn. now rewrite Hsel.
  - destruct (scalar _) as [row|] eqn:Hrow; [|reflexivity].
    apply scalar_filter_In in Hrow as [_ Hsel]. cbn.
    unfold where_user in *. apply Z.eqb_eq in Hsel.
    destruct (Z.eqb_spec (User.user_id row) user_id); [congruence|reflexivity].
Qed.


Lemma active_games_nil_current s user_id :
  active_games s user_id = [] <-> current_game s user_id = None.
Proof.
  unfold current_game. split.
  - now intros ->.
  - apply scalar_filter_None.
Qed.

(** The winner of a resignation is the colour the player does not play. *)
Lemma resolve_who_win_resign game evaluation :
  valid_orientation game ->
  resolve_who_win true game evaluation = Some (opposite (Game.orientation game)).
Proof.
  unfold resolve_who_win, opposite. now intros [-> | ->].
Qed.


Lemma reachable_playing : reachable playing.
Proof. unfold playing. do 2 apply reachable_exec. apply reachable_initial. Qed.

Lemma reachable_replaying : reachable replaying.
Proof. unfold replaying. apply reachable_exec. apply reachable_playing. Qed.

(** The four ways a call of [create_new_game] can go. *)
Lemma create_new_game_cases engine start_fen user_id orientation w :
  let run := create_new_game engine start_fen user_id orientation w in
  (orientation <> "w" /\ orientation <> "b" /\ run = (w, Raise ValueError))
  \/ (current_game (db w) user_id = None
      /\ run = (mkWorld
                  (with_game (db w) (new_Game start_fen user_id orientation))
                  (engine_calls w),
                Return false))
  \/ (exists game user,
        current_game (db w) user_id = Some game
        /\ find_user (db w) user_id = Some user
        /\ run = (mkWorld
                    (with_game
                       (stopped_store (db w) user_id (resigned engine game)
                          game user)
                       (new_Game start_fen user_id orientation))
                    (engine_calls w ++ [Game.fen game]),
                  Return true))
  \/ (exists game,
        current_game (db w) user_id = Some game
        /\ find_user (db w) user_id = None
        /\ run = (mkWorld (db w) (engine_calls w ++ [Game.fen game]),
                  Raise AttributeError)).
Proof.
  cbv zeta.
  destruct (String.eqb_spec orientation "w") as [Hw|Hw];
    [|destruct (String.eqb_spec orientation "b") as [Hb|Hb]].
  3: { left. auto using create_new_game_invalid. }
  all: assert (Hvalid : orientation = "w" \/ orientation = "b") by tauto.
  all: right.
  all: destruct (current_game (db w) user_id) as [game|] eqn:Hgame;
    [|left; auto using create_new_game_fresh].
  all: right.
  all: destruct (find_user (db w) user_id) as [user|] eqn:Huser.
  all: eauto 8 using create_new_game_displace, create_new_game_no_user.
Qed.

Lemma at_most_one_active_exec c w :
  at_most_one_active (db w) -> at_most_one_active (db (exec c w)).
Proof.
  intros Hone.
  induction (exec_transitions c w) as [|s1 s2 s3 Hstep _ IH]; [exact Hone|].
  apply IH. eapply at_most_one_active_transition; eauto.
Qed.

(** ** The claims *)

(** C1.  In every store reached by calls of the interface each user has at
    most one active game.  Every call keeps this from any store in which it
    holds.  And when [create_new_game] has returned, the rows that were in
    the table before the call hold no active game of the user; the new,
    active row stands after them. *)
Theorem at_most_one_active_game :
  (forall w, reachable w -> at_most_one_active (db w))
  /\ (forall c w,
        at_most_one_active (db w) -> at_most_one_active (db (exec c w)))
  /\ (forall engine start_fen user_id orientation w w' displaced,
        create_new_game engine start_fen user_id orientation w
        = (w', Return displaced) ->
        exists old,
          games (db w') = old ++ [new_Game start_fen user_id orientation]
          /\ length old = length (games (db w))
          /\ List.filter (where_active_game user_id) old = []).
Proof.
  split; [|split].
  - intros w Hreach. now apply reachable_consistent.
  - intros c w Hone. now apply at_most_one_active_exec.
  - intros engine start_fen user_id orientation w w' displaced Hrun.
    destruct (create_new_game_cases engine start_fen user_id orientation w)
      as [(_ & _ & Hcase)
         |[(Hnone & Hcase)
          |[(game & user & Hgame & Huser & Hcase)
           |(game & Hgame & Huser & Hcase)]]];
      rewrite Hcase in Hrun; inversion Hrun; subst; cbn.
    + exists (games (db w)). repeat split.
      now apply active_games_nil_current.
    + eexists. repeat split.
      * apply update_where_length.
      * apply active_games_stopped.
Qed.

(** A run with two starts in a row: the second displaces the first game. *)
Lemma at_most_one_active_game_witness : at_most_one_active (db replaying).
Proof.
  apply (proj1 at_most_one_active_game replaying).
  unfold replaying, playing. do 3 apply reachable_exec. apply reachable_initial.
Defined.

Example replaying_games :
  List.map (fun g => (Game.orientation g, Game.is_active g, Game.who_win g))
    (games (db replaying))
  = [("w", false, Some "b"); ("b", true, None)].
Proof. reflexivity. Qed.

(** C2.  For a user with an active game, [stop_current_game] returns the
    evaluation and the winner, and the user's row then has one more game
    and one more of exactly one other counter: a win when the winner is the
    player's colour, a defeat when there is a winner of the other colour, a
    draw when there is no winner; the other two counters are as before.  So
    [total_games = total_wins + total_defeats + total_draws] is kept, and
    the rows of the other users are not touched. *)
Theorem stop_current_game_counters engine w user_id is_resign game user :
  current_game (db w) user_id = Some game ->
  find_user (db w) user_id = Some user ->
  exists w' evaluation who_win user',
    stop_current_game engine user_id is_resign w
    = (w', Return (Some (evaluation, who_win)))
    /\ find_user (db w') user_id = Some user'
    /\ User.total_games user' = User.total_games user + 1
    /\ (who_win = Some (Game.orientation game) ->
        User.total_wins user' = User.total_wins user + 1
        /\ User.total_defeats user' = User.total_defeats user
        /\ User.total_draws user' = User.total_draws user)
    /\ (forall winner,
          who_win = Some winner -> winner <> Game.orientation game ->
          User.total_wins user' = User.total_wins user
          /\ User.total_defeats user' = User.total_defeats user + 1
          /\ User.total_draws user' = User.total_draws user)
    /\ (who_win = None ->
        User.total_wins user' = User.total_wins user
        /\ User.total_defeats user' = User.total_defeats user
        /\ User.total_draws user' = User.total_draws user + 1)
    /\ (User.total_games user
        = User.total_wins user + User.total_defeats user
          + User.total_draws user ->
        User.total_games user'
        = User.total_wins user' + User.total_defeats user'
          + User.total_draws user')
    /\ (forall other,
          other <> user_id ->
          find_user (db w') other = find_user (db w) other).
Proof.
  intros Hgame Huser.
  pose proof (stop_current_game_some engine _ _ is_resign _ _ Hgame Huser)
    as Hstop.
  cbv zeta in Hstop.
  set (who_win := resolve_who_win is_resign game (engine (Game.fen game))) in *.
  exists (mkWorld (stopped_store (db w) user_id who_win game user)
            (engine_calls w ++ [Game.fen game])),
    (engine (Game.fen game)), who_win, (record_outcome user game who_win user).
  split; [exact Hstop|]. cbn [db].
  split; [rewrite find_user_stopped, Z.eqb_refl, Huser; reflexivity|].
  unfold record_outcome. cbn.
  split; [reflexivity|].
  split; [|split; [|split; [|split]]].
  - intros ->. cbn. rewrite String.eqb_refl. cbn. auto.
  - intros winner -> Hne. cbn.
    destruct (String.eqb_spec (Game.orientation game) winner);
      [congruence|]. cbn. auto.
  - intros ->. cbn. auto.
  - destruct who_win as [winner|]; cbn;
      [destruct (String.eqb (Game.orientation game) winner)|]; cbn; lia.
  - intros other Hne. rewrite find_user_stopped.
    now destruct (Z.eqb_spec other user_id).
Qed.

Lemma stop_current_game_counters_witness :
  exists w' evaluation who_win user',
    stop_current_game sample_engine 7 true resigning
    = (w', Return (Some (evaluation, who_win)))
    /\ find_user (db w') 7 = Some user'
    /\ User.total_games user' = 4 + 1
    /\ (who_win = Some "w" ->
        User.total_wins user' = 3 + 1
        /\ User.total_defeats user' = 1
        /\ User.total_draws user' = 0)
    /\ (forall winner,
          who_win = Some winner -> winner <> "w" ->
          User.total_wins user' = 3
          /\ User.total_defeats user' = 1 + 1
          /\ User.total_draws user' = 0)
    /\ (who_win = None ->
        User.total_wins user' = 3
        /\ User.total_defeats user' = 1
        /\ User.total_draws user' = 0 + 1)
    /\ (4 = 3 + 1 + 0 ->
        User.total_games user'
        = User.total_wins user' + User.total_defeats user'
          + User.total_draws user')
    /\ (forall other,
          other <> 7 -> find_user (db w') other = find_user (db resigning) other).
Proof.
  apply (stop_current_game_counters sample_engine resigning 7 true
           (Game.mk 7 "w" true "e2e4 e7e5" (Some "e7e5") None sample_fen None)
           (User.mk 7 "ann" 1000 4 3 1 0)).
  - reflexivity.
  - reflexivity.
Defined.

Example resigning_counters :
  List.map
    (fun u => (User.total_wins u, User.total_defeats u, User.total_draws u,
               User.total_games u))
    (users (db (exec (StopCurrentGame sample_engine 7 true) resigning)))
  = [(3, 2, 0, 5)].
Proof. reflexivity. Qed.

(** C3.  The winner [stop_current_game] returns and writes to the stopped
    rows is found in this order.  On a resignation it is the colour the
    player does not play, whatever the evaluation says.  Otherwise, when the
    evaluation is terminal, it is the winner the evaluation reports (none
    for a draw).  Otherwise, when the end type is "checkmate", it is white
    for a positive value and black for a negative one.  Otherwise there is
    none. *)
Theorem stop_current_game_winner engine w user_id is_resign game user :
  current_game (db w) user_id = Some game ->
  find_user (db w) user_id = Some user ->
  valid_orientation game ->
  let evaluation := engine (Game.fen game) in
  exists w' who_win,
    stop_current_game engine user_id is_resign w
    = (w', Return (Some (evaluation, who_win)))
    /\ games (db w')
       = update_where (where_active_game user_id) (set_stopped who_win)
           (games (db w))
    /\ (is_resign = true ->
        who_win = Some (opposite (Game.orientation game)))
    /\ (is_resign = false ->
        EngineEvaluation.is_end evaluation = true ->
        who_win = EngineEvaluation.who_win evaluation)
    /\ (is_resign = false ->
        EngineEvaluation.is_end evaluation = false ->
        EngineEvaluation.end_type evaluation = "checkmate" ->
        (0 < EngineEvaluation.value evaluation -> who_win = Some "w")
        /\ (EngineEvaluation.value evaluation < 0 -> who_win = Some "b"))
    /\ (is_resign = false ->
        EngineEvaluation.is_end evaluation = false ->
        EngineEvaluation.end_type evaluation <> "checkmate" ->
        who_win = None).
Proof.
  intros Hgame Huser Hvalid evaluation.
  pose proof (stop_current_game_some engine _ _ is_resign _ _ Hgame Huser)
    as Hstop.
  cbv zeta in Hstop. fold evaluation in Hstop.
  eexists _, _. split; [exact Hstop|]. cbn [db games stopped_store].
  split; [reflexivity|].
  split; [|split; [|split]].
  - intros ->. now apply resolve_who_win_resign.
  - intros -> Hend. unfold resolve_who_win. now rewrite Hend.
  - intros -> Hend Htype. unfold resolve_who_win. rewrite Hend, Htype. cbn.
    split; intros Hsign.
    + apply Z.ltb_lt in Hsign. now rewrite Hsign.
    + destruct (Z.ltb_spec 0 (EngineEvaluation.value evaluation));
        [lia|reflexivity].
  - intros -> Hend Htype%String.eqb_neq. unfold resolve_who_win.
    now rewrite Hend, Htype.
Qed.

(** A user playing white stops while the engine announces mate with a
    negative value: black wins, and the game counts as a defeat. *)
Lemma stop_current_game_winner_witness :
  exists w' who_win,
    stop_current_game mate_engine 7 false playing
    = (w', Return (Some (mate_engine sample_fen, who_win)))
    /\ games (db w')
       = update_where (where_active_game 7) (set_stopped who_win)
           (games (db playing))
    /\ (false = true -> who_win = Some (opposite "w"))
    /\ (false = false ->
        EngineEvaluation.is_end (mate_engine sample_fen) = true ->
        who_win = EngineEvaluation.who_win (mate_engine sample_fen))
    /\ (false = false ->
        EngineEvaluation.is_end (mate_engine sample_fen) = false ->
        EngineEvaluation.end_type (mate_engine sample_fen) = "checkmate" ->
        (0 < EngineEvaluation.value (mate_engine sample_fen) ->
         who_win = Some "w")
        /\ (EngineEvaluation.value (mate_engine sample_fen) < 0 ->
            who_win = Some "b"))
    /\ (false = false ->
        EngineEvaluation.is_end (mate_engine sample_fen) = false ->
        EngineEvaluation.end_type (mate_engine sample_fen) <> "checkmate" ->
        who_win = None).
Proof.
  apply (stop_current_game_winner mate_engine playing 7 false
           (new_Game sample_fen 7 "w") (new_User 1000 7 "ann")).
  - reflexivity.
  - reflexivity.
  - left. reflexivity.
Defined.

Example mate_announced :
  let w' := exec (StopCurrentGame mate_engine 7 false) playing in
  List.map Game.who_win (games (db w')) = [Some "b"]
  /\ List.map
       (fun u => (User.total_wins u, User.total_defeats u,
                  User.total_draws u, User.total_games u))
       (users (db w'))
     = [(0, 1, 0, 1)].
Proof. split; reflexivity. Qed.

(** With the end type "checkmate" and the value zero the code takes the
    [else] of line 125: black wins. *)
Example mate_value_zero game :
  resolve_who_win false game (EngineEvaluation.mk 0 "checkmate" false None (0, 0, 0))
  = Some "b".
Proof. reflexivity. Qed.

(** C4.  For a user with no active game [stop_current_game] returns [None]
    and changes nothing: no row of any table, and no request is sent to the
    evaluation service.  So a stop that is repeated after a stop that
    returned finds nothing to stop and counts nothing twice. *)
Theorem stop_current_game_absent engine w user_id is_resign :
  (active_games (db w) user_id = [] ->
   stop_current_game engine user_id is_resign w = (w, Return None))
  /\ (forall w' stopped engine' is_resign',
        stop_current_game engine user_id is_resign w
        = (w', Return (Some stopped)) ->
        stop_current_game engine' user_id is_resign' w' = (w', Return None)).
Proof.
  split.
  - intros Hnone%active_games_nil_current.
    now apply stop_current_game_none.
  - intros w' stopped engine' is_resign' Hrun.
    apply stop_current_game_none.
    destruct (current_game (db w) user_id) as [game|] eqn:Hgame.
    + destruct (find_user (db w) user_id) as [user|] eqn:Huser.
      * pose proof (stop_current_game_some engine _ _ is_resign _ _ Hgame Huser)
          as Hstop.
        cbv zeta in Hstop. rewrite Hstop in Hrun. inversion Hrun; subst.
        apply current_game_stopped.
      * rewrite (stop_current_game_no_user engine _ _ is_resign _ Hgame Huser)
          in Hrun.
        discriminate.
    + rewrite (stop_current_game_none engine _ _ is_resign Hgame) in Hrun.
      discriminate.
Qed.

(** A registered user who never started a game, and a user who stops
    twice. *)
Lemma stop_current_game_absent_witness :
  stop_current_game sample_engine 7 false
    (exec (CreateNewUser sample_defaults 1000 7 "ann") initial)
  = (exec (CreateNewUser sample_defaults 1000 7 "ann") initial, Return None)
  /\ stop_current_game mate_engine 7 true
       (exec (StopCurrentGame sample_engine 7 false) playing)
     = (exec (StopCurrentGame sample_engine 7 false) playing, Return None).
Proof.
  split.
  - apply (proj1 (stop_current_game_absent sample_engine
                    (exec (CreateNewUser sample_defaults 1000 7 "ann") initial)
                    7 false)).
    reflexivity.
  - apply (proj2 (stop_current_game_absent sample_engine playing 7 false)
             _ (sample_evaluation, None)).
    reflexivity.
Defined.

(** C5.  With an orientation that is neither "w" nor "b"
    [create_new_game] raises [ValueError] and nothing has changed: no game
    row is added, no game is stopped, no counter moves, no request is sent
    to the evaluation service. *)
Theorem create_new_game_validation engine start_fen user_id orientation w :
  orientation <> "w" -> orientation <> "b" ->
  create_new_game engine start_fen user_id orientation w
  = (w, Raise ValueError).
Proof.
  intros Hw%String.eqb_neq Hb%String.eqb_neq.
  unfold create_new_game. rewrite Hw, Hb. reflexivity.
Qed.

(** The orientation "x", while a game is being played. *)
Lemma create_new_game_validation_witness :
  create_new_game sample_engine sample_fen 7 "x" playing
  = (playing, Raise ValueError).
Proof.
  apply (create_new_game_validation sample_engine sample_fen 7 "x" playing).
  - discriminate.
  - discriminate.
Defined.

(** C6.  For a registered user and an orientation "w" or "b"
    [create_new_game] returns, the user then has exactly one active game,
    the new one with the given orientation, and the value returned is [true]
    exactly when the user had an active game before the call. *)
Theorem create_new_game_one_active engine start_fen user_id orientation w user :
  orientation = "w" \/ orientation = "b" ->
  find_user (db w) user_id = Some user ->
  exists w' displaced,
    create_new_game engine start_fen user_id orientation w
    = (w', Return displaced)
    /\ active_games (db w') user_id
       = [Game.mk user_id orientation true "" None None start_fen None]
    /\ (displaced = true <-> active_games (db w) user_id <> []).
Proof.
  intros Hvalid Huser.
  destruct (current_game (db w) user_id) as [game|] eqn:Hgame.
  - eexists _, _. split.
    { apply (create_new_game_displace _ _ _ _ _ Hvalid _ _ Hgame Huser). }
    cbn [db]. split.
    + rewrite active_games_app. unfold active_games at 1. cbn [games stopped_store].
      rewrite active_games_stopped. cbn.
      unfold where_active_game. cbn. now rewrite Z.eqb_refl.
    + split; [|reflexivity]. intros _ Hnil%active_games_nil_current. congruence.
  - eexists _, _. split.
    { apply (create_new_game_fresh _ _ _ _ _ Hvalid Hgame). }
    cbn [db]. split.
    + rewrite active_games_app.
      apply active_games_nil_current in Hgame as ->. cbn.
      unfold where_active_game. cbn. now rewrite Z.eqb_refl.
    + apply active_games_nil_current in Hgame. split; [discriminate|tauto].
Qed.

(** The second start of a user who is playing. *)
Lemma create_new_game_one_active_witness :
  exists w' displaced,
    create_new_game sample_engine sample_fen 7 "b" playing
    = (w', Return displaced)
    /\ active_games (db w') 7
       = [Game.mk 7 "b" true "" None None sample_fen None]
    /\ (displaced = true <-> active_games (db playing) 7 <> []).
Proof.
  apply (create_new_game_one_active sample_engine sample_fen 7 "b" playing
           (new_User 1000 7 "ann")).
  - right. reflexivity.
  - reflexivity.
Defined.

(** The store puts no foreign key on game rows.  For an id without a row
    in the users table the first start adds a game, and the second fails at
    [user.total_games]: nothing is written, the first game stays active. *)
Example create_new_game_unregistered :
  let w1 := exec (CreateNewGame sample_engine sample_fen 8 "w") initial in
  create_new_game sample_engine sample_fen 8 "b" w1
  = (mkWorld (db w1) [sample_fen], Raise AttributeError).
Proof. reflexivity. Qed.



(** ** Users and settings *)




(** The lookups of the expression under [try] depend on [params] through
    the entry of [param] alone. *)
Lemma clamped_same_entry limits params params' param :
  params !! param = params' !! param ->
  clamped limits params param = clamped limits params' param.
Proof. unfold clamped. now intros ->. Qed.


Lemma clamp_loop_lookup limits keys :
  NoDup keys ->
  forall params applied,
    clamp_loop limits keys params = Return applied ->
    forall param,
      applied !! param
      = if decide (param ∈ keys) then clamp_outcome limits params param
        else params !! param.
Proof.
  induction 1 as [|key keys Hfresh Hnodup IH]; intros params applied Hloop param.
  - cbn in Hloop. injection Hloop as <-. reflexivity.
  - cbn in Hloop.
    destruct (clamped limits params key) as [[v|e]|] eqn:Hkey;
      [|discriminate|].
    + rewrite (IH _ _ Hloop param).
      destruct (decide (param = key)) as [->|Hne].
      * rewrite decide_False by exact Hfresh.
        rewrite decide_True by left.
        unfold clamp_outcome. rewrite Hkey. apply lookup_insert_eq.
      * unfold clamp_outcome.
        rewrite (clamped_same_entry limits (<[key:=v]> params) params)
          by now apply lookup_insert_ne.
        rewrite lookup_insert_ne by congruence.
        destruct (decide (param ∈ keys)) as [Hin|Hout].
        -- rewrite decide_True by now right. reflexivity.
        -- rewrite decide_False; [reflexivity|].
           intros [?|?]%elem_of_cons; congruence.
    + rewrite (IH _ _ Hloop param).
      destruct (decide (param = key)) as [->|Hne].
      * rewrite decide_False by exact Hfresh.
        rewrite decide_True by left.
        unfold clamp_outcome. now rewrite Hkey.
      * destruct (decide (param ∈ keys)) as [Hin|Hout].
        -- rewrite decide_True by now right. reflexivity.
        -- rewrite decide_False; [reflexivity|].
           intros [?|?]%elem_of_cons; congruence.
Qed.






Example update_settings_sample :
  let '(w', r) := update_settings sample_limits 7 sample_params playing in
  r = Return {[ "depth" := VInt 20; "elo" := VInt 100;
                "colors" := VStr "green" ]}
  /\ List.map (fun row => (row !! "user_id", row !! "depth", row !! "elo",
                           row !! "colors"))
       (settings (db w'))
     = [(Some (VInt 7), Some (VInt 20), Some (VInt 100),
         Some (VStr "green"))].
Proof. vm_compute. split; reflexivity. Qed.

(** An entry of the limits without "min" leaves the value as given: the
    [KeyError] of the second subscript is passed over like that of the
    first. *)
Example clamp_without_min :
  clamp_loop {[ "depth" := {[ "max" := 20 ]} ]} ["depth"]
    {[ "depth" := VInt 99 ]}
  = Return {[ "depth" := VInt 99 ]}.
Proof. reflexivity. Qed.

(** With "min" above "max" the value is "min". *)
Example clamp_empty_interval :
  clamp_loop {[ "depth" := {[ "min" := 5; "max" := 3 ]} ]} ["depth"]
    {[ "depth" := VInt 4 ]}
  = Return {[ "depth" := VInt 5 ]}.
Proof. vm_compute. reflexivity. Qed.

(** ** The leaderboard *)

#[global] Instance ranks_before_total : Total ranks_before.
Proof. intros a b. unfold ranks_before. lia. Qed.

#[global] Instance ranks_before_transitive : Transitive ranks_before.
Proof. intros a b c. unfold ranks_before. lia. Qed.








Example ranked_rows :
  List.map (fun u => (User.name u, win_rate u)) (select_top 3 (db ranked))
  = [("cy", Return 100); ("bob", Return 38); ("ann", Return 12)].
Proof. vm_compute. reflexivity. Qed.

Example ranked_text :
  snd (get_global_statistic 3 60 ranked)
  = Return
      (String.concat newline
         ["*Ник - W/D/L/Total - WinRate*";
          "[cy](tg://user?id=3) - 3/0/0/3 - 100%";
          "[bob](tg://user?id=2) - 3/1/4/8 - 38%";
          "[ann](tg://user?id=1) - 1/0/7/8 - 12%";
          newline +:+ "Статистика обновляется раз в *60 секунд*"]).
Proof. vm_compute. reflexivity. Qed.

(** A user without games has the rate 0. *)
Example no_games_rate : win_rate (User.mk 4 "dan" 70 0 0 0 0) = Return 0.
Proof. vm_compute. reflexivity. Qed.

(** ** Calls that overlap *)

(** A call that runs alone is its two parts in a row. *)
Lemma exec_suspends_resume c w a :
  suspends c w = Some a ->
  match c with
  | StopCurrentGame engine _ _ | CreateNewGame engine _ _ _ =>
      match a with
      | AwaitingStop _ _ game | AwaitingStart _ _ _ game =>
          exec c w = resume a (engine (Game.fen game)) ∅ (requested a w)
      | _ => False
      end
  | CreateNewUser defaults _ _ _ =>
      exec c w = resume a sample_evaluation defaults (requested a w)
  | _ => False
  end.
Proof.
  destruct c as [defaults utcnow user_id name
                |engine start_fen user_id orientation
                |engine user_id is_resign
                |user_id prev_moves last_move check fen
                |limits user_id params
                |top ttl]; cbn [suspends exec]; try discriminate.
  - destruct (find_user (db w) user_id) eqn:Huser; [discriminate|].
    intros [= <-]. cbn [resume requested].
    unfold create_new_user, create_new_user_resume, create_session_do_commit,
      bind.
    rewrite get_user_run, Huser. reflexivity.
  - destruct (negb _) eqn:Hvalid; [discriminate|].
    destruct (current_game (db w) user_id) as [game|] eqn:Hgame;
      [|discriminate].
    intros [= <-]. cbn [resume requested].
    unfold create_new_game, create_new_game_resume, stop_current_game, bind.
    rewrite Hvalid, get_current_game_run, Hgame. reflexivity.
  - destruct (current_game (db w) user_id) as [game|] eqn:Hgame;
      [|discriminate].
    intros [= <-]. cbn [resume requested].
    unfold stop_current_game, stop_current_game_resume, bind.
    rewrite get_current_game_run, Hgame. reflexivity.
Qed.

Lemma at_most_one_active_games s s' :
  games s' = games s -> at_most_one_active s -> at_most_one_active s'.
Proof. intros Hgames Hone uid. unfold active_games. rewrite Hgames. apply Hone. Qed.

(** The rest of a stop, on whatever store it finds, leaves the user
    without an active game or leaves the store as it is. *)
Lemma stop_current_game_resume_games user_id is_resign game evaluation w :
  let run := stop_current_game_resume user_id is_resign game evaluation w in
  (db (fst run) = db w /\ exists e, snd run = Raise e)
  \/ (games (db (fst run))
      = update_where (where_active_game user_id)
          (set_stopped (resolve_who_win is_resign game evaluation))
          (games (db w))
      /\ exists r, snd run = Return r).
Proof.
  cbv zeta. unfold stop_current_game_resume, create_session_do_commit, bind.
  cbn. destruct (scalar (List.filter (where_user user_id) (users (db w))));
    cbn; eauto.
Qed.

Lemma at_most_one_active_stopped s s' user_id who_win :
  games s'
  = update_where (where_active_game user_id) (set_stopped who_win) (games s) ->
  at_most_one_active s ->
  at_most_one_active s' /\ active_games s' user_id = [].
Proof.
  intros Hgames Hone. split.
  - intros uid. unfold active_games. rewrite Hgames.
    destruct (Z.eq_dec user_id uid) as [->|Hne].
    + rewrite active_games_stopped. cbn. lia.
    + rewrite active_games_stopped_other by exact Hne. apply Hone.
  - unfold active_games. rewrite Hgames. apply active_games_stopped.
Qed.

Lemma at_most_one_active_with_game s game :
  active_games s (Game.user_id game) = [] ->
  at_most_one_active s -> at_most_one_active (with_game s game).
Proof.
  intros Hnone Hone uid. rewrite active_games_app, List.length_app.
  destruct (where_active_game uid game) eqn:Hsel; cbn [length].
  - apply andb_prop in Hsel as [Hid%Z.eqb_eq _]. rewrite <- Hid, Hnone.
    cbn. lia.
  - specialize (Hone uid). lia.
Qed.

Lemma at_most_one_active_resume a evaluation defaults w :
  at_most_one_active (db w) ->
  at_most_one_active (db (resume a evaluation defaults w)).
Proof.
  intros Hone. destruct a as [user_id is_resign game
                             |start_fen user_id orientation game
                             |utcnow user_id name]; cbn [resume].
  - destruct (stop_current_game_resume_games user_id is_resign game
                evaluation w) as [[Hdb _]|[Hgames _]].
    + now rewrite Hdb.
    + now apply (at_most_one_active_stopped _ _ _ _ Hgames).
  - unfold create_new_game_resume, bind.
    pose proof (stop_current_game_resume_games user_id true game evaluation w)
      as Hcases.
    cbv zeta in Hcases.
    destruct (stop_current_game_resume user_id true game evaluation w)
      as [w1 [r|e]]; cbn [fst snd] in *.
    + destruct Hcases as [[_ (e & He)]|[Hgames _]]; [discriminate|].
      destruct (at_most_one_active_stopped _ _ _ _ Hgames Hone)
        as [Hone' Hnone].
      now apply (at_most_one_active_with_game (db w1)
                   (new_Game start_fen user_id orientation)).
    + destruct Hcases as [[Hdb _]|[_ (r & Hr)]]; [|discriminate].
      now rewrite Hdb.
  - now apply at_most_one_active_games with (s := db w).
Qed.

Lemma overlapped_one_active w pool :
  overlapped w pool -> at_most_one_active (db w).
Proof.
  induction 1 as [|c w pool _ IH _|c w pool a _ IH _
                 |w pool i a evaluation defaults _ IH _].
  - apply consistent_empty.
  - now apply at_most_one_active_exec.
  - destruct a; exact IH.
  - now apply at_most_one_active_resume.
Qed.

(** X17.  Under every interleaving of the calls at their awaits each user
    has at most one active game: a call that comes back from its await
    closes every active game of the user, whichever it had read before, and
    adds its own only after that, without a break in between. *)
Theorem at_most_one_active_overlapped w pool :
  overlapped w pool -> at_most_one_active (db w).
Proof.
  induction 1 as [|c w pool _ IH _|c w pool a _ IH _
                 |w pool i a evaluation defaults _ IH _].
  - apply consistent_empty.
  - now apply at_most_one_active_exec.
  - destruct a; exact IH.
  - now apply at_most_one_active_resume.
Qed.

(** * More of the code *)

(** ** Every call as a sequence of writes *)

Lemma exec_writes c w : rtc write (db w) (db (exec c w)).
Proof.
  destruct c as [defaults utcnow user_id name
                |engine start_fen user_id orientation
                |engine user_id is_resign
                |user_id prev_moves last_move check fen
                |limits user_id params
                |top ttl]; cbn [exec].
  - destruct (find_user (db w) user_id) as [user|] eqn:Huser.
    + rewrite (create_new_user_exists _ _ _ _ _ user Huser). constructor.
    + rewrite (create_new_user_new _ _ _ _ _ Huser). cbn.
      apply rtc_once. now apply write_new_user.
  - destruct (create_new_game_cases engine start_fen user_id orientation w)
      as [(_ & _ & Hcase)
         |[(Hnone & Hcase)
          |[(game & user & Hgame & Huser & Hcase)
           |(game & Hgame & Huser & Hcase)]]];
      rewrite Hcase; cbn [fst db]; try constructor.
    + destruct (String.eqb_spec orientation "w") as [Hw|Hw];
        [|destruct (String.eqb_spec orientation "b") as [Hb|Hb]].
      3: { rewrite create_new_game_invalid in Hcase by assumption.
           discriminate. }
      all: apply rtc_once; apply write_new_game; tauto.
    + destruct (String.eqb_spec orientation "w") as [Hw|Hw];
        [|destruct (String.eqb_spec orientation "b") as [Hb|Hb]].
      3: { rewrite create_new_game_invalid in Hcase by assumption.
           discriminate. }
      all: eapply rtc_l;
        [apply (write_stop _ _ (resigned engine game) _ _ Hgame Huser)|].
      all: apply rtc_once; apply write_new_game;
        [apply current_game_stopped|tauto].
  - destruct (current_game (db w) user_id) as [game|] eqn:Hgame.
    + destruct (find_user (db w) user_id) as [user|] eqn:Huser.
      * pose proof (stop_current_game_some engine _ _ is_resign _ _ Hgame Huser)
          as Hstop.
        cbv zeta in Hstop. rewrite Hstop. cbn.
        apply rtc_once. now apply write_stop.
      * rewrite (stop_current_game_no_user engine _ _ is_resign _ Hgame Huser).
        constructor.
    + rewrite (stop_current_game_none engine _ _ is_resign Hgame). constructor.
  - destruct (current_game (db w) user_id) as [game|] eqn:Hgame.
    + rewrite (update_current_game_some _ _ _ _ _ _ _ Hgame). cbn.
      apply rtc_once. now apply write_move with (game := game).
    + rewrite (update_current_game_none _ _ _ _ _ _ Hgame). constructor.
  - rewrite update_settings_run. destruct (clamp_loop _ _ _); cbn.
    + apply rtc_once. apply write_settings.
    + constructor.
  - rewrite get_global_statistic_world. constructor.
Qed.

Lemma write_transition s s' : write s s' -> transition s s'.
Proof.
  intros Hwrite.
  destruct Hwrite as [s utcnow user_id name row Hnone
                     |s user_id who_win game user Hgame Huser
                     |s start_fen user_id orientation Hnone Hvalid
                     |s user_id prev_moves last_move check fen game Hgame
                     |s user_id applied].
  - apply (transition_add_user s (User.mk user_id name utcnow 0 0 0 0));
      [exact Hnone|]. unfold counters_ok. cbn. lia.
  - now apply transition_stop.
  - now apply transition_add_game.
  - apply transition_move.
  - apply transition_settings.
Qed.

Lemma consistent_write s s' : write s s' -> consistent s -> consistent s'.
Proof. intros Hw. apply consistent_transition. now apply write_transition. Qed.

(** ** What the tables keep *)

Lemma update_where_lookup {A} (p : A -> bool) (f : A -> A) rows i :
  update_where p f rows !! i
  = option_map (fun r => if p r then f r else r) (rows !! i).
Proof.
  revert i. induction rows as [|r rows IH]; intros [|i]; cbn; auto.
Qed.

Lemma rows_kept_refl {A} (kept : A -> A -> Prop) rows :
  (forall r, kept r r) -> rows_kept kept rows rows.
Proof. intros Hrefl i r Hr. eauto. Qed.

Lemma rows_kept_trans {A} (kept : A -> A -> Prop) rows1 rows2 rows3 :
  (forall a b c, kept a b -> kept b c -> kept a c) ->
  rows_kept kept rows1 rows2 -> rows_kept kept rows2 rows3 ->
  rows_kept kept rows1 rows3.
Proof.
  intros Htrans H12 H23 i r Hr.
  destruct (H12 i r Hr) as (r2 & Hr2 & Hk2).
  destruct (H23 i r2 Hr2) as (r3 & Hr3 & Hk3). eauto.
Qed.

Lemma rows_kept_app {A} (kept : A -> A -> Prop) rows more :
  (forall r, kept r r) -> rows_kept kept rows (rows ++ more).
Proof.
  intros Hrefl i r Hr. exists r. split; [|apply Hrefl].
  now apply lookup_app_l_Some.
Qed.

Lemma rows_kept_update_where {A} (kept : A -> A -> Prop) p f (rows : list A) :
  (forall r, kept r r) ->
  (forall r, In r rows -> p r = true -> kept r (f r)) ->
  rows_kept kept rows (update_where p f rows).
Proof.
  intros Hrefl Hf i r Hr. rewrite update_where_lookup, Hr. cbn.
  eexists. split; [reflexivity|].
  destruct (p r) eqn:Hp; [|apply Hrefl].
  apply Hf; [|exact Hp]. apply list_elem_of_In. eapply list_elem_of_lookup_2.
  exact Hr.
Qed.

Lemma game_kept_refl g : game_kept g g.
Proof. unfold game_kept. auto. Qed.

Lemma game_kept_trans a b c : game_kept a b -> game_kept b c -> game_kept a c.
Proof.
  intros (Hu1 & Ho1 & Hs1) (Hu2 & Ho2 & Hs2). repeat split; try congruence.
  intros Hstopped. specialize (Hs1 Hstopped). subst b. auto.
Qed.

Lemma user_kept_refl u : user_kept u u.
Proof. unfold user_kept. repeat split; lia. Qed.

Lemma user_kept_trans a b c : user_kept a b -> user_kept b c -> user_kept a c.
Proof.
  unfold user_kept.
  intros (Hi1 & Hn1 & Hc1 & ?) (Hi2 & Hn2 & Hc2 & ?).
  repeat split; try congruence; lia.
Qed.

Lemma game_kept_active user_id f g :
  (forall g, Game.user_id (f g) = Game.user_id g
             /\ Game.orientation (f g) = Game.orientation g) ->
  where_active_game user_id g = true -> game_kept g (f g).
Proof.
  intros Hf [_ Hactive]%andb_prop. destruct (Hf g) as [Hu Ho].
  repeat split; [exact Hu|exact Ho|]. congruence.
Qed.

Lemma games_kept_write s s' :
  write s s' -> rows_kept game_kept (games s) (games s').
Proof.
  intros Hwrite.
  destruct Hwrite as [s utcnow user_id name row Hnone
                     |s user_id who_win game user Hgame Huser
                     |s start_fen user_id orientation Hnone Hvalid
                     |s user_id prev_moves last_move check fen game Hgame
                     |s user_id applied]; cbn.
  - apply rows_kept_refl, game_kept_refl.
  - apply rows_kept_update_where; [apply game_kept_refl|].
    intros g _. now apply game_kept_active.
  - apply rows_kept_app, game_kept_refl.
  - apply rows_kept_update_where; [apply game_kept_refl|].
    intros g _. now apply game_kept_active.
  - apply rows_kept_refl, game_kept_refl.
Qed.

Lemma unique_user_row (rows : list User.t) a b :
  NoDup (List.map User.user_id rows) ->
  In a rows -> In b rows -> User.user_id a = User.user_id b -> a = b.
Proof.
  induction rows as [|r rows IH]; [intros _ []|].
  cbn. intros Hnodup%NoDup_cons [<-|Ha] [<-|Hb] Hid; auto.
  - destruct Hnodup as [Hfresh _]. exfalso. apply Hfresh.
    rewrite Hid. apply list_elem_of_In. now apply List.in_map.
  - destruct Hnodup as [Hfresh _]. exfalso. apply Hfresh.
    rewrite <- Hid. apply list_elem_of_In. now apply List.in_map.
  - apply IH; tauto.
Qed.

Lemma record_outcome_kept user game who_win :
  user_kept user (record_outcome user game who_win user).
Proof.
  unfold user_kept, record_outcome. cbn.
  destruct who_win as [winner|]; cbn;
    [destruct (String.eqb (Game.orientation game) winner)|]; cbn;
    repeat split; lia.
Qed.

Lemma users_kept_write s s' :
  write s s' ->
  NoDup (List.map User.user_id (users s)) ->
  rows_kept user_kept (users s) (users s').
Proof.
  intros Hwrite Hnodup.
  destruct Hwrite as [s utcnow user_id name row Hnone
                     |s user_id who_win game user Hgame Huser
                     |s start_fen user_id orientation Hnone Hvalid
                     |s user_id prev_moves last_move check fen game Hgame
                     |s user_id applied]; cbn.
  - apply rows_kept_app, user_kept_refl.
  - apply rows_kept_update_where; [apply user_kept_refl|].
    intros row Hin Hsel. apply scalar_filter_In in Huser as [Huser Hid].
    assert (row = user) as ->.
    { apply (unique_user_row (users s)); auto.
      unfold where_user in *. apply Z.eqb_eq in Hsel, Hid. congruence. }
    apply record_outcome_kept.
  - apply rows_kept_refl, user_kept_refl.
  - apply rows_kept_refl, user_kept_refl.
  - apply rows_kept_refl, user_kept_refl.
Qed.

Lemma unsettled_write s s' :
  write s s' -> Forall unsettled (games s) -> Forall unsettled (games s').
Proof.
  intros Hwrite Hall.
  destruct Hwrite as [s utcnow user_id name row Hnone
                     |s user_id who_win game user Hgame Huser
                     |s start_fen user_id orientation Hnone Hvalid
                     |s user_id prev_moves last_move check fen game Hgame
                     |s user_id applied]; cbn; try exact Hall.
  - apply Forall_update_where; [|exact Hall]. intros g _ _. intros [=].
  - apply Forall_app. split; [exact Hall|]. constructor; [|constructor].
    intros _. reflexivity.
  - apply Forall_update_where; [|exact Hall]. intros g Hg _. exact Hg.
Qed.

(** X1.  No call deletes or moves a game row, none changes the user or the
    orientation of a row, and a row of a stopped game is never changed
    again: the history of finished games, each with its winner, stays as it
    was written. *)
Theorem games_history_kept c w :
  rows_kept game_kept (games (db w)) (games (db (exec c w))).
Proof.
  induction (exec_writes c w) as [s|s1 s2 s3 Hwrite _ IH].
  - apply rows_kept_refl, game_kept_refl.
  - eapply rows_kept_trans; [apply game_kept_trans| |exact IH].
    now apply games_kept_write.
Qed.

(** X2.  In a users table with one row per id no call deletes or moves a
    user row or changes its id, name or creation time, and no counter of a
    row ever goes down. *)
Theorem users_counters_monotone c w :
  NoDup (List.map User.user_id (users (db w))) ->
  rows_kept user_kept (users (db w)) (users (db (exec c w))).
Proof.
  induction (exec_writes c w) as [s|s1 s2 s3 Hwrite _ IH]; intros Hnodup.
  - apply rows_kept_refl, user_kept_refl.
  - eapply rows_kept_trans; [apply user_kept_trans| |apply IH].
    + now apply users_kept_write.
    + eapply unique_users_transition; [|exact Hnodup].
      now apply write_transition.
Qed.

Lemma users_counters_monotone_witness :
  rows_kept user_kept (users (db playing))
    (users (db (exec (StopCurrentGame mate_engine 7 false) playing))).
Proof.
  apply (users_counters_monotone (StopCurrentGame mate_engine 7 false) playing).
  cbn. apply NoDup_singleton.
Defined.

(** X3.  In every store reached by calls of the interface every game has
    the orientation "w" or "b", an active game has no winner, the counters
    of every user are not negative with [total_games] their sum, and no two
    user rows have the same id. *)
Theorem reachable_well_formed w :
  reachable w ->
  Forall valid_orientation (games (db w))
  /\ Forall unsettled (games (db w))
  /\ Forall counters_ok (users (db w))
  /\ NoDup (List.map User.user_id (users (db w))).
Proof.
  intros Hreach. destruct (reachable_consistent w Hreach) as [_ Hor Hcnt Huniq].
  repeat split; try assumption.
  clear -Hreach. induction Hreach as [|c w _ IH]; [constructor|].
  induction (exec_writes c w) as [s|s1 s2 s3 Hwrite _ IHw]; [exact IH|].
  apply IHw. now apply (unsettled_write s1 s2).
Qed.

Lemma reachable_well_formed_witness :
  Forall valid_orientation (games (db replaying))
  /\ Forall unsettled (games (db replaying))
  /\ Forall counters_ok (users (db replaying))
  /\ NoDup (List.map User.user_id (users (db replaying))).
Proof.
  apply (reachable_well_formed replaying).
  unfold replaying, playing. do 3 apply reachable_exec. apply reachable_initial.
Defined.

(** ** The counters and the history *)

Lemma filter_update_where_count {A} (p q : A -> bool) (f : A -> A) rows :
  (forall r, p r = true -> q r = false) ->
  length (List.filter q (update_where p f rows))
  = (length (List.filter q rows)
     + length (List.filter (fun r => q (f r)) (List.filter p rows)))%nat.
Proof.
  intros Hpq. induction rows as [|r rows IH]; [reflexivity|].
  unfold update_where in *. cbn [List.map List.filter].
  destruct (p r) eqn:Hp.
  - rewrite (Hpq r Hp). cbn [List.filter].
    destruct (q (f r)); cbn [length]; rewrite IH; lia.
  - destruct (q r); cbn [length]; rewrite IH; lia.
Qed.

Lemma finished_not_active user_id user_id' outcome g :
  where_active_game user_id g = true ->
  finished user_id' g && outcome g = false.
Proof.
  intros [_ Hactive]%andb_prop. unfold finished. rewrite Hactive. cbn.
  now rewrite andb_false_r.
Qed.

Lemma current_game_only s user_id game :
  at_most_one_active s ->
  current_game s user_id = Some game -> active_games s user_id = [game].
Proof.
  intros Hone Hgame. specialize (Hone user_id). unfold current_game in Hgame.
  destruct (active_games s user_id) as [|g [|g' rest]]; cbn in *;
    [discriminate|congruence|lia].
Qed.

(** The tallies after a stop: one more for the user of the stopped game,
    where the outcome is that of the stopped row. *)
Lemma tally_stopped s user_id who_win game user user_id' outcome :
  at_most_one_active s ->
  current_game s user_id = Some game ->
  tally (stopped_store s user_id who_win game user) user_id' outcome
  = tally s user_id' outcome
    + (if Z.eqb user_id' user_id && outcome (set_stopped who_win game)
       then 1 else 0).
Proof.
  intros Hone Hgame. unfold tally, stopped_store. cbn [games].
  rewrite filter_update_where_count
    by (intros; now apply finished_not_active with (user_id := user_id)).
  fold (active_games s user_id). rewrite (current_game_only _ _ _ Hone Hgame).
  apply scalar_filter_In in Hgame as [_ [Hid _]%andb_prop].
  apply Z.eqb_eq in Hid. cbn. unfold finished. cbn. rewrite Hid.
  rewrite (Z.eqb_sym user_id user_id').
  destruct (Z.eqb user_id' user_id); cbn;
    [destruct (outcome _); cbn|]; lia.
Qed.

Lemma tally_with_game s user_id outcome start_fen user_id' orientation :
  tally
    (with_game s
       (Game.mk user_id' orientation true "" None None start_fen None))
    user_id outcome
  = tally s user_id outcome.
Proof.
  unfold tally, with_game. cbn [games]. rewrite List.filter_app. cbn.
  unfold finished. cbn. rewrite andb_false_r. cbn. now rewrite app_nil_r.
Qed.

Lemma tally_moved s user_id outcome user_id' prev_moves last_move check fen :
  tally
    (mkStore (users s) (settings s)
       (update_where (where_active_game user_id')
          (set_position prev_moves last_move check fen) (games s)))
    user_id outcome
  = tally s user_id outcome.
Proof.
  unfold tally. cbn [games]. rewrite filter_update_where_other; [reflexivity|].
  intros g Hg. split.
  - now apply finished_not_active with (user_id := user_id').
  - destruct (andb_prop _ _ Hg) as [_ Hactive]. unfold finished. cbn.
    rewrite Hactive. cbn. now rewrite andb_false_r.
Qed.

Lemma find_user_app_None s user rows user_id :
  find_user (mkStore (users s ++ [user]) rows (games s)) user_id = None ->
  find_user s user_id = None /\ User.user_id user <> user_id.
Proof.
  unfold find_user. cbn. rewrite List.filter_app.
  destruct (List.filter (where_user user_id) (users s)); [|discriminate].
  cbn. unfold where_user. destruct (Z.eqb_spec (User.user_id user) user_id);
    [discriminate|auto].
Qed.

Lemma history_counted_write s s' :
  write s s' -> consistent s -> history_counted s -> history_counted s'.
Proof.
  intros Hwrite [Hone _ _ Huniq] [Hrows Hnone].
  destruct Hwrite as [s utcnow user_id name row Hfresh
                     |s user_id who_win game user Hgame Huser
                     |s start_fen user_id orientation Hcur Hvalid
                     |s user_id prev_moves last_move check fen game Hgame
                     |s user_id applied].
  - split.
    + cbn [users]. apply Forall_app. split.
      * eapply Forall_impl; [exact Hrows|]. intros u Hu. exact Hu.
      * constructor; [|constructor]. unfold tallied. cbn.
        unfold tally in *. cbn [games]. repeat split; symmetry;
          now apply Hnone.
    + intros uid outcome [Hn _]%find_user_app_None.
      unfold tally in *. cbn [games]. now apply Hnone.
  - split.
    + cbn [users stopped_store]. apply Forall_forall. intros u' Hin.
      apply list_elem_of_In, List.in_map_iff in Hin as (u & <- & Hin).
      rewrite List.Forall_forall in Hrows. specialize (Hrows u Hin).
      destruct Hrows as (Hg & Hw & Hl & Hd).
      destruct (where_user user_id u) eqn:Hsel.
      * pose proof Huser as Huser'.
        apply scalar_filter_In in Huser' as [Hin' Hid'].
        assert (u = user) as ->.
        { apply (unique_user_row (users s)); auto.
          unfold where_user in *. apply Z.eqb_eq in Hsel, Hid'. congruence. }
        unfold where_user in Hsel. apply Z.eqb_eq in Hsel.
        rewrite Hsel in Hg, Hw, Hl, Hd.
        unfold tallied, record_outcome, set_totals.
        cbn [User.total_games User.total_wins User.total_defeats
             User.total_draws User.user_id].
        rewrite Hsel, !(tally_stopped _ _ _ _ _ _ _ Hone Hgame), Z.eqb_refl.
        rewrite <- Hg, <- Hw, <- Hl, <- Hd.
        unfold played, won, lost, drawn. cbn.
        destruct who_win as [winner|]; cbn;
          [destruct (String.eqb (Game.orientation game) winner)|]; cbn;
          repeat split; lia.
      * unfold where_user in Hsel. unfold tallied.
        rewrite !(tally_stopped _ _ _ _ _ _ _ Hone Hgame), Hsel. cbn.
        rewrite !Z.add_0_r. auto.
    + intros uid outcome Hn. rewrite find_user_stopped in Hn.
      destruct (Z.eqb_spec uid user_id) as [->|Hne].
      * rewrite Huser in Hn. discriminate.
      * rewrite (tally_stopped _ _ _ _ _ _ _ Hone Hgame).
        apply Z.eqb_neq in Hne. rewrite Hne. cbn. rewrite Z.add_0_r.
        now apply Hnone.
  - split.
    + cbn [users with_game]. eapply Forall_impl; [exact Hrows|].
      intros u Hu. unfold tallied. now rewrite !tally_with_game.
    + intros uid outcome Hn. rewrite tally_with_game. now apply Hnone.
  - split.
    + cbn [users]. eapply Forall_impl; [exact Hrows|].
      intros u Hu. unfold tallied. now rewrite !tally_moved.
    + intros uid outcome Hn. rewrite tally_moved. now apply Hnone.
  - split.
    + cbn [users]. eapply Forall_impl; [exact Hrows|]. intros u Hu. exact Hu.
    + intros uid outcome Hn. now apply Hnone.
Qed.

(** X4.  In every store reached by calls of the interface the counters of
    each user are the tallies of the rows of the stopped games of that
    user: [total_games] is their number, [total_wins] the number of those won
    by the colour the user played, [total_defeats] of those won by the other
    colour, [total_draws] of those without a winner; and an id without a user
    row has no stopped game. *)
Theorem reachable_history_counted w : reachable w -> history_counted (db w).
Proof.
  induction 1 as [|c w Hreach IH].
  - split; [constructor|reflexivity].
  - pose proof (reachable_consistent w Hreach) as Hcons.
    induction (exec_writes c w) as [s|s1 s2 s3 Hwrite _ IHw]; [exact IH|].
    apply IHw.
    + now apply (history_counted_write s1 s2).
    + now apply (consistent_write s1 s2).
Qed.

Lemma reachable_history_counted_witness : history_counted (db replaying).
Proof.
  apply (reachable_history_counted replaying).
  unfold replaying, playing. do 3 apply reachable_exec. apply reachable_initial.
Defined.

(** ** Moves *)

Lemma current_game_moved s user_id prev_moves last_move check fen :
  current_game
    (mkStore (users s) (settings s)
       (update_where (where_active_game user_id)
          (set_position prev_moves last_move check fen) (games s)))
    user_id
  = option_map (set_position prev_moves last_move check fen)
      (current_game s user_id).
Proof.
  unfold current_game, active_games. cbn [games].
  rewrite filter_update_where_same
    by (intros; apply where_active_game_position).
  rewrite scalar_update_where.
  destruct (scalar _) as [g|] eqn:Hg; [|reflexivity].
  apply scalar_filter_In in Hg as [_ Hsel]. cbn. now rewrite Hsel.
Qed.

(** X5.  [update_current_game] never raises and never returns [False].  It
    returns [None], and changes nothing, exactly when the user has no active
    game.  Otherwise it returns [True], the game then found by
    [get_current_game] is the one found before with the new history, last
    move, check square and position, still active and of the same
    orientation; no row is added, and the users, the settings and the
    requests sent to the evaluation service are as before. *)
Theorem update_current_game_writes user_id prev_moves last_move check fen w :
  exists w' r,
    update_current_game user_id prev_moves last_move check fen w
    = (w', Return r)
    /\ r <> Some false
    /\ (r = None <-> active_games (db w) user_id = [])
    /\ (r = None -> w' = w)
    /\ current_game (db w') user_id
       = option_map
           (fun g =>
              Game.mk user_id (Game.orientation g) true prev_moves
                (Some last_move) check fen (Game.who_win g))
           (current_game (db w) user_id)
    /\ length (games (db w')) = length (games (db w))
    /\ users (db w') = users (db w)
    /\ settings (db w') = settings (db w)
    /\ engine_calls w' = engine_calls w.
Proof.
  destruct (current_game (db w) user_id) as [game|] eqn:Hgame.
  - eexists _, _. split; [now apply update_current_game_some with (game := game)|].
    cbn [db engine_calls users settings games].
    split; [discriminate|]. split.
    { split; [discriminate|].
      intros Hnil%active_games_nil_current. congruence. }
    split; [discriminate|]. split.
    { rewrite current_game_moved, Hgame. cbn. unfold set_position.
      apply scalar_filter_In in Hgame as [_ [Hid Hactive]%andb_prop].
      apply Z.eqb_eq in Hid. now rewrite Hid, Hactive. }
    split; [apply update_where_length|]. auto.
  - eexists _, _. split; [now apply update_current_game_none|].
    split; [discriminate|]. split.
    { split; [|reflexivity]. intros _. now apply active_games_nil_current. }
    split; [reflexivity|]. rewrite Hgame. auto.
Qed.

(** ** Requests to the evaluation service *)

(** X6.  A call sends at most one position to the evaluation service: a
    stop, or a start with a valid orientation, of a user with an active game
    sends the position of that game, whether the call then returns or
    raises; every other call sends none. *)
Theorem exec_requests c w :
  engine_calls (exec c w) = engine_calls w ++ requests c w
  /\ (length (requests c w) <= 1)%nat.
Proof.
  split.
  - destruct c as [defaults utcnow user_id name
                  |engine start_fen user_id orientation
                  |engine user_id is_resign
                  |user_id prev_moves last_move check fen
                  |limits user_id params
                  |top ttl]; cbn [exec requests].
    + destruct (find_user (db w) user_id) as [user|] eqn:Huser.
      * rewrite (create_new_user_exists _ _ _ _ _ user Huser).
        cbn. now rewrite app_nil_r.
      * rewrite (create_new_user_new _ _ _ _ _ Huser). cbn.
        now rewrite app_nil_r.
    + destruct (create_new_game_cases engine start_fen user_id orientation w)
        as [(Hw & Hb & Hcase)
           |[(Hnone & Hcase)
            |[(game & user & Hgame & Huser & Hcase)
             |(game & Hgame & Huser & Hcase)]]];
        rewrite Hcase; cbn [fst engine_calls].
      * apply String.eqb_neq in Hw, Hb. rewrite Hw, Hb. cbn.
        now rewrite app_nil_r.
      * rewrite Hnone. destruct (negb _); now rewrite app_nil_r.
      * rewrite Hgame. destruct (negb _) eqn:Hvalid; [|reflexivity].
        unfold create_new_game in Hcase. rewrite Hvalid in Hcase.
        discriminate.
      * rewrite Hgame. destruct (negb _) eqn:Hvalid; [|reflexivity].
        unfold create_new_game in Hcase. rewrite Hvalid in Hcase.
        discriminate.
    + destruct (current_game (db w) user_id) as [game|] eqn:Hgame.
      * destruct (find_user (db w) user_id) as [user|] eqn:Huser.
        -- pose proof (stop_current_game_some engine _ _ is_resign _ _
                         Hgame Huser) as Hstop.
           cbv zeta in Hstop. now rewrite Hstop.
        -- now rewrite (stop_current_game_no_user engine _ _ is_resign _
                          Hgame Huser).
      * rewrite (stop_current_game_none engine _ _ is_resign Hgame).
        cbn. now rewrite app_nil_r.
    + destruct (current_game (db w) user_id) as [game|] eqn:Hgame.
      * rewrite (update_current_game_some _ _ _ _ _ _ _ Hgame). cbn.
        now rewrite app_nil_r.
      * rewrite (update_current_game_none _ _ _ _ _ _ Hgame). cbn.
        now rewrite app_nil_r.
    + rewrite update_settings_run. destruct (clamp_loop _ _ _); cbn;
        now rewrite app_nil_r.
    + rewrite get_global_statistic_world. now rewrite app_nil_r.
  - destruct c; cbn; try lia.
    + destruct (negb _); [cbn; lia|]. destruct (current_game _ _); cbn; lia.
    + destruct (current_game _ _); cbn; lia.
Qed.

(** ** An id without a user row *)

(** X7.  For an id that has an active game but no row in the users table,
    [stop_current_game] and a [create_new_game] with a valid orientation
    both raise [AttributeError], after the request to the evaluation
    service, and leave every table as it was: the game stays active and can
    be neither stopped nor displaced. *)
Theorem unregistered_user_stuck engine start_fen user_id is_resign
  orientation w game :
  current_game (db w) user_id = Some game ->
  find_user (db w) user_id = None ->
  orientation = "w" \/ orientation = "b" ->
  let w' := mkWorld (db w) (engine_calls w ++ [Game.fen game]) in
  stop_current_game engine user_id is_resign w = (w', Raise AttributeError)
  /\ create_new_game engine start_fen user_id orientation w
     = (w', Raise AttributeError)
  /\ current_game (db w') user_id = Some game
  /\ find_user (db w') user_id = None.
Proof.
  intros Hgame Huser Hvalid w'. split; [|split; [|split]].
  - now apply stop_current_game_no_user.
  - now apply create_new_game_no_user.
  - exact Hgame.
  - exact Huser.
Qed.

Lemma unregistered_user_stuck_witness :
  let w := exec (CreateNewGame sample_engine sample_fen 8 "w") initial in
  let w' := mkWorld (db w) (engine_calls w ++ [sample_fen]) in
  stop_current_game mate_engine 8 false w = (w', Raise AttributeError)
  /\ create_new_game sample_engine sample_fen 8 "b" w
     = (w', Raise AttributeError)
  /\ current_game (db w') 8 = Some (new_Game sample_fen 8 "w")
  /\ find_user (db w') 8 = None.
Proof.
  apply (unregistered_user_stuck mate_engine sample_fen 8 false "b"
           (exec (CreateNewGame sample_engine sample_fen 8 "w") initial)
           (new_Game sample_fen 8 "w")).
  - reflexivity.
  - reflexivity.
  - right. reflexivity.
Defined.

(** ** More on the settings *)








(** X9.  A parameter whose limits lack "min" or lack "max" is not clamped:
    when [update_settings] returns, the map it returns and writes holds the
    value as it was given. *)
Theorem update_settings_open_limits limits user_id params w w' applied param lim :
  update_settings limits user_id params w = (w', Return applied) ->
  limits !! param = Some lim ->
  lim !! "min" = None \/ lim !! "max" = None ->
  applied !! param = params !! param.
Proof.
  intros Hrun Hlim Hopen. rewrite update_settings_run in Hrun.
  destruct (clamp_loop limits (map_to_list params).*1 params)
    as [applied'|e] eqn:Hloop; [|discriminate].
  injection Hrun as _ <-.
  rewrite (clamp_loop_lookup _ _ (NoDup_fst_map_to_list params) _ _ Hloop).
  destruct (decide _) as [Hin|Hout]; [|reflexivity].
  unfold clamp_outcome, clamped. rewrite Hlim.
  destruct (params !! param) as [v|]; [|reflexivity].
  destruct (lim !! "max") as [hi|]; [|reflexivity].
  destruct Hopen as [Hmin|Hmax]; [|discriminate]. rewrite Hmin.
  now destruct (py_min v hi).
Qed.

Lemma update_settings_open_limits_witness :
  ({[ "depth" := VInt 99 ]} : gmap string value) !! "depth" = Some (VInt 99).
Proof.
  exact (update_settings_open_limits {[ "depth" := {[ "max" := 20 ]} ]} 7
           {[ "depth" := VInt 99 ]} playing
           (fst (update_settings {[ "depth" := {[ "max" := 20 ]} ]} 7
                   {[ "depth" := VInt 99 ]} playing))
           {[ "depth" := VInt 99 ]} "depth" {[ "max" := 20 ]}
           eq_refl eq_refl (or_introl eq_refl)).
Defined.

Lemma update_where_none {A} (p : A -> bool) (f : A -> A) rows :
  List.filter p rows = [] -> update_where p f rows = rows.
Proof.
  unfold update_where.
  induction rows as [|r rows IH]; [reflexivity|]. cbn [List.map List.filter].
  destruct (p r); [discriminate|]. intros Hnone. now rewrite IH.
Qed.


(** A map without the key "user_id", laid over a row, keeps the row with
    its user. *)
Lemma where_settings_union user_id (applied row : gmap string value) :
  applied !! "user_id" = None ->
  where_settings user_id (applied ∪ row) = where_settings user_id row.
Proof.
  intros Hnone. unfold where_settings. now rewrite lookup_union_r.
Qed.

(** X10.  [update_settings] writes to no table but the settings, adds and
    removes no row, and leaves every row of another user as it was.  For a
    user without a settings row it changes nothing at all, and still
    returns the map of the new values when it returns. *)
Theorem update_settings_frame limits user_id params w :
  let w' := fst (update_settings limits user_id params w) in
  users (db w') = users (db w)
  /\ games (db w') = games (db w)
  /\ engine_calls w' = engine_calls w
  /\ length (settings (db w')) = length (settings (db w))
  /\ (forall i row,
        settings (db w) !! i = Some row ->
        where_settings user_id row = false ->
        settings (db w') !! i = Some row)
  /\ (find_settings (db w) user_id = None -> w' = w).
Proof.
  cbv zeta. rewrite update_settings_run.
  destruct (clamp_loop limits (map_to_list params).*1 params) as [applied|e];
    cbn [fst db users games settings engine_calls].
  - repeat split; try reflexivity.
    + apply update_where_length.
    + intros i row Hrow Hsel. rewrite update_where_lookup, Hrow. cbn.
      now rewrite Hsel.
    + intros Hnone%scalar_filter_None. rewrite update_where_none by exact Hnone.
      now destruct w as [[] ?].
  - repeat split; auto.
Qed.




(** ** Reading the settings back *)

Lemma get_settings_run user_id w :
  get_settings user_id w = (w, Return (find_settings (db w) user_id)).
Proof. reflexivity. Qed.

(** [get_params] holds each of its columns as the row holds it. *)
Lemma Settings_get_params_column row column :
  column ∈ params_columns ->
  Settings_get_params row !! column = Some (row !! column).
Proof.
  unfold params_columns. rewrite !elem_of_cons, elem_of_nil.
  intros [->|[->|[->|[->|[->|[->|[->|[->|[->|[->|[]]]]]]]]]]]; reflexivity.
Qed.

Lemma Settings_get_params_other row key :
  key <> "with_engine" -> key ∉ params_columns ->
  Settings_get_params row !! key = None.
Proof.
  intros Hne Hout. apply not_elem_of_list_to_map_1. cbn.
  unfold params_columns in Hout. rewrite !elem_of_cons, elem_of_nil in *.
  tauto.
Qed.

Lemma lookup_union_match (applied row : gmap string value) key :
  (applied ∪ row) !! key
  = match applied !! key with
    | Some v => Some v
    | None => row !! key
    end.
Proof.
  rewrite lookup_union.
  destruct (applied !! key), (row !! key); reflexivity.
Qed.

(** X12.  After [update_settings] has returned for a user with a settings
    row, [get_settings] finds that row with the returned values laid over
    it, and [get_params] of it gives, for each of its ten columns, the
    returned value where the column was among the parameters and the old
    value where it was not.  [get_params] always holds "with_engine" as
    [True], and never the id of the user or any other key.  The parameters
    do not name the column "user_id". *)
Theorem settings_round_trip limits user_id params w w' applied row :
  params !! "user_id" = None ->
  update_settings limits user_id params w = (w', Return applied) ->
  find_settings (db w) user_id = Some row ->
  get_settings user_id w' = (w', Return (Some (applied ∪ row)))
  /\ (forall column,
        column ∈ params_columns ->
        Settings_get_params (applied ∪ row) !! column
        = Some (match applied !! column with
                | Some v => Some v
                | None => row !! column
                end))
  /\ Settings_get_params (applied ∪ row) !! "with_engine"
     = Some (Some (VInt 1))
  /\ (forall key,
        key <> "with_engine" -> key ∉ params_columns ->
        Settings_get_params (applied ∪ row) !! key = None).
Proof.
  intros Hkey Hrun Hrow. rewrite update_settings_run in Hrun.
  destruct (clamp_loop limits (map_to_list params).*1 params)
    as [applied'|e] eqn:Hloop; [|discriminate].
  injection Hrun as <- <-.
  assert (Huid : applied' !! "user_id" = None).
  { rewrite (clamp_loop_lookup _ _ (NoDup_fst_map_to_list params) _ _ Hloop).
    destruct (decide _); [|exact Hkey].
    unfold clamp_outcome, clamped. now rewrite Hkey. }
  split; [|split; [|split]].
  - rewrite get_settings_run. do 2 f_equal. unfold find_settings in *.
    cbn [db settings].
    rewrite filter_update_where_same
      by (intros; now apply where_settings_union).
    rewrite scalar_update_where, Hrow. cbn.
    apply scalar_filter_In in Hrow as [_ Hsel]. now rewrite Hsel.
  - intros column Hin.
    now rewrite Settings_get_params_column, lookup_union_match.
  - reflexivity.
  - intros key Hne Hout. now apply Settings_get_params_other.
Qed.

Lemma settings_round_trip_witness :
  let applied : gmap string value :=
    {[ "depth" := VInt 20; "elo" := VInt 100; "colors" := VStr "green" ]} in
  let row : gmap string value :=
    {[ "user_id" := VInt 7 ]} ∪ sample_defaults in
  let w' := fst (update_settings sample_limits 7 sample_params playing) in
  get_settings 7 w' = (w', Return (Some (applied ∪ row)))
  /\ (forall column,
        column ∈ params_columns ->
        Settings_get_params (applied ∪ row) !! column
        = Some (match applied !! column with
                | Some v => Some v
                | None => row !! column
                end))
  /\ Settings_get_params (applied ∪ row) !! "with_engine"
     = Some (Some (VInt 1))
  /\ (forall key,
        key <> "with_engine" -> key ∉ params_columns ->
        Settings_get_params (applied ∪ row) !! key = None).
Proof.
  apply (settings_round_trip sample_limits 7 sample_params playing).
  - reflexivity.
  - vm_compute. reflexivity.
  - vm_compute. reflexivity.
Defined.




(** ** More on the leaderboard *)

Lemma select_top_sorted top s :
  select_top top s ++ drop top (merge_sort ranks_before (users s))
  = merge_sort ranks_before (users s).
Proof. unfold select_top. apply take_drop. Qed.

(** X14.  With no user in the table, or with [GLOBAL_TOP] zero,
    [get_global_statistic] raises nothing and returns the heading and the
    closing line with no entry between them. *)
Theorem get_global_statistic_empty top ttl w :
  users (db w) = [] \/ top = 0%nat ->
  get_global_statistic top ttl w
  = (w,
     Return
       (String.concat newline
          ["*Ник - W/D/L/Total - WinRate*";
           newline +:+ "Статистика обновляется раз в "
           +:+ "*" +:+ pretty ttl +:+ " секунд*"])).
Proof.
  intros Hempty. unfold get_global_statistic, bind, lift. cbn.
  assert (select_top top (db w) = []) as ->; [|reflexivity].
  unfold select_top. destruct Hempty as [-> | ->]; [|reflexivity].
  now destruct top.
Qed.

Lemma get_global_statistic_empty_witness :
  get_global_statistic 10 60 initial
  = (initial,
     Return
       (String.concat newline
          ["*Ник - W/D/L/Total - WinRate*";
           newline +:+ "Статистика обновляется раз в "
           +:+ "*" +:+ pretty 60 +:+ " секунд*"])).
Proof.
  apply (get_global_statistic_empty 10 60 initial).
  left. reflexivity.
Defined.

(** X15.  Nobody is left out of the leaderboard in favour of a user with
    fewer wins: a user of the table who has more wins than some listed user
    is listed too; and of two users with as many wins, the one created
    strictly earlier is listed whenever the other is. *)
Theorem select_top_closed top s listed other :
  listed ∈ select_top top s ->
  In other (users s) ->
  User.total_wins listed < User.total_wins other
  \/ (User.total_wins listed = User.total_wins other
      /\ User.created_time other < User.created_time listed) ->
  other ∈ select_top top s.
Proof.
  intros Hlisted Hother Hbetter.
  assert (Hsorted : StronglySorted ranks_before
                      (select_top top s
                       ++ drop top (merge_sort ranks_before (users s)))).
  { rewrite select_top_sorted. apply StronglySorted_merge_sort; apply _. }
  apply list_elem_of_In in Hother.
  rewrite <- (merge_sort_Permutation ranks_before),
    <- (select_top_sorted top s) in Hother.
  apply elem_of_app in Hother as [Hin|Hrest]; [exact Hin|].
  pose proof (StronglySorted_app_1_elem_of _ _ _ _ _ Hsorted Hlisted Hrest)
    as Hrank.
  unfold ranks_before in Hrank. lia.
Qed.

Lemma select_top_closed_witness :
  User.mk 3 "cy" 80 3 3 0 0 ∈ select_top 2 (db ranked).
Proof.
  apply (select_top_closed 2 (db ranked) (User.mk 2 "bob" 90 8 3 4 1)
           (User.mk 3 "cy" 80 3 3 0 0)).
  - vm_compute. right. left.
  - cbn. tauto.
  - right. cbn. lia.
Defined.

(** X16.  The leaderboard does not depend on the order of the rows in the
    users table: two tables with the same rows, in which no two different
    rows have both the same wins and the same creation time, give the same
    list. *)
Theorem select_top_order_free top s s' :
  users s ≡ₚ users s' ->
  (forall a b,
     In a (users s) -> In b (users s) ->
     User.total_wins a = User.total_wins b ->
     User.created_time a = User.created_time b -> a = b) ->
  select_top top s = select_top top s'.
Proof.
  intros Hperm Hdistinct. unfold select_top. f_equal.
  apply (StronglySorted_unique_strong ranks_before).
  - intros a b Ha Hb Hab Hba. apply Hdistinct.
    + apply list_elem_of_In. now rewrite <- (merge_sort_Permutation ranks_before).
    + apply list_elem_of_In. rewrite Hperm.
      now rewrite <- (merge_sort_Permutation ranks_before).
    + unfold ranks_before in *. lia.
    + unfold ranks_before in *. lia.
  - apply StronglySorted_merge_sort; apply _.
  - apply StronglySorted_merge_sort; apply _.
  - now rewrite !merge_sort_Permutation.
Qed.

Lemma select_top_order_free_witness :
  select_top 3 (db ranked)
  = select_top 3
      (mkStore
         [User.mk 4 "dan" 70 0 0 0 0; User.mk 3 "cy" 80 3 3 0 0;
          User.mk 2 "bob" 90 8 3 4 1; User.mk 1 "ann" 100 8 1 7 0]
         [] []).
Proof.
  apply (select_top_order_free 3 (db ranked)).
  - exact (Permutation_rev (users (db ranked))).
  - cbn [users db ranked]. intros a b Ha Hb Hw Hc.
    repeat (destruct Ha as [<-|Ha]; [|]); try contradiction;
      repeat (destruct Hb as [<-|Hb]; [|]); try contradiction;
      cbn in *; try reflexivity; try discriminate.
Defined.

(** ** More on calls that overlap *)

(** Calls made one after the other are a special case of calls that
    overlap: each goes on as soon as it has given way. *)
Lemma reachable_overlapped w : reachable w -> overlapped w [].
Proof.
  induction 1 as [|c w _ IH]; [constructor|].
  destruct (suspends c w) as [a|] eqn:Hsusp.
  - pose proof (exec_suspends_resume c w a Hsusp) as Hexec.
    pose proof (overlapped_suspend c w [] a IH Hsusp) as Hwait.
    destruct c as [defaults utcnow user_id name
                  |engine start_fen user_id orientation
                  |engine user_id is_resign
                  |user_id prev_moves last_move check fen
                  |limits user_id params
                  |top ttl]; try contradiction.
    + rewrite Hexec.
      apply (overlapped_resume _ [a] 0 a sample_evaluation defaults Hwait).
      reflexivity.
    + destruct a as [| |]; try contradiction; rewrite Hexec.
      * apply (overlapped_resume _ [_] 0 _ (engine (Game.fen game)) ∅ Hwait).
        reflexivity.
      * apply (overlapped_resume _ [_] 0 _ (engine (Game.fen game)) ∅ Hwait).
        reflexivity.
    + destruct a as [| |]; try contradiction; rewrite Hexec.
      * apply (overlapped_resume _ [_] 0 _ (engine (Game.fen game)) ∅ Hwait).
        reflexivity.
      * apply (overlapped_resume _ [_] 0 _ (engine (Game.fen game)) ∅ Hwait).
        reflexivity.
  - now apply overlapped_exec.
Qed.

Lemma at_most_one_active_overlapped_witness :
  at_most_one_active
    (db (resume (AwaitingStop 7 true (new_Game sample_fen 7 "w"))
           sample_evaluation ∅
           (requested (AwaitingStop 7 true (new_Game sample_fen 7 "w"))
              playing))).
Proof.
  apply (at_most_one_active_overlapped _
           (delete 0%nat [AwaitingStop 7 true (new_Game sample_fen 7 "w")])).
  apply (overlapped_resume _ [AwaitingStop 7 true (new_Game sample_fen 7 "w")]
           0 _ sample_evaluation ∅).
  - apply (overlapped_suspend (StopCurrentGame sample_engine 7 true) playing []).
    + apply reachable_overlapped. unfold playing.
      do 2 apply reachable_exec. apply reachable_initial.
    + reflexivity.
  - reflexivity.
Defined.

Lemma stop_current_game_resume_run user_id is_resign game evaluation w user :
  find_user (db w) user_id = Some user ->
  let who_win := resolve_who_win is_resign game evaluation in
  stop_current_game_resume user_id is_resign game evaluation w
  = (mkWorld (stopped_store (db w) user_id who_win game user) (engine_calls w),
     Return (Some (evaluation, who_win))).
Proof.
  intros Huser. cbv zeta.
  unfold stop_current_game_resume, create_session_do_commit, bind. cbn.
  unfold find_user in Huser. rewrite Huser. reflexivity.
Qed.

(** X18.  Two stops of the same game that overlap count the game twice:
    when both calls have read the active game before either comes back from
    the evaluation service, the game is closed once, by the first to come
    back, and [total_games] of the user grows by two, so that it is one more
    than the stopped games of the user have grown. *)
Theorem overlapping_stops_count_twice user_id is_resign is_resign' game user
  evaluation evaluation' w pool :
  overlapped w pool ->
  current_game (db w) user_id = Some game ->
  find_user (db w) user_id = Some user ->
  let first := AwaitingStop user_id is_resign game in
  let second := AwaitingStop user_id is_resign' game in
  let w1 := resume first evaluation ∅ (requested second (requested first w)) in
  let w2 := resume second evaluation' ∅ w1 in
  overlapped w2 pool
  /\ games (db w2) = games (db w1)
  /\ tally (db w2) user_id played = tally (db w) user_id played + 1
  /\ exists user2,
       find_user (db w2) user_id = Some user2
       /\ User.total_games user2 = User.total_games user + 2.
Proof.
  intros Hover Hgame Huser first second w1 w2.
  pose proof (overlapped_one_active w pool Hover) as Hone.
  assert (Hw1 : w1
                = mkWorld
                    (stopped_store (db w) user_id
                       (resolve_who_win is_resign game evaluation) game user)
                    (engine_calls (requested second (requested first w)))).
  { subst w1 first. cbn [resume].
    now rewrite (stop_current_game_resume_run _ _ _ _ _ user). }
  assert (Huser1 : find_user (db w1) user_id
                   = Some (record_outcome user game
                             (resolve_who_win is_resign game evaluation) user)).
  { rewrite Hw1. cbn [db]. now rewrite find_user_stopped, Z.eqb_refl, Huser. }
  assert (Hw2 : db w2
                = stopped_store (db w1) user_id
                    (resolve_who_win is_resign' game evaluation') game
                    (record_outcome user game
                       (resolve_who_win is_resign game evaluation) user)).
  { subst w2 second. cbn [resume].
    now rewrite (stop_current_game_resume_run _ _ _ _ _ _ Huser1). }
  assert (Hgames : games (db w2) = games (db w1)).
  { rewrite Hw2. cbn [games stopped_store]. apply update_where_none.
    rewrite Hw1. cbn [db games stopped_store]. apply active_games_stopped. }
  split; [|split; [exact Hgames|split]].
  - subst w2 w1.
    change pool with (delete 0%nat (second :: pool)).
    apply overlapped_resume with (a := second); [|reflexivity].
    change (second :: pool) with (delete 1%nat (second :: first :: pool)).
    apply overlapped_resume with (a := first); [|reflexivity].
    apply (overlapped_suspend (StopCurrentGame (fun _ => evaluation') user_id
                                 is_resign') (requested first w)
             (first :: pool) second).
    + apply (overlapped_suspend (StopCurrentGame (fun _ => evaluation) user_id
                                   is_resign) w pool first Hover).
      cbn. now rewrite Hgame.
    + cbn. now rewrite Hgame.
  - assert (tally (db w2) user_id played = tally (db w1) user_id played) as ->
      by (unfold tally; now rewrite Hgames).
    rewrite Hw1. cbn [db].
    rewrite (tally_stopped (db w) user_id _ game user user_id played Hone Hgame).
    now rewrite Z.eqb_refl.
  - eexists. split.
    + rewrite Hw2. now rewrite find_user_stopped, Z.eqb_refl, Huser1.
    + unfold record_outcome. cbn. lia.
Qed.

Lemma overlapping_stops_count_twice_witness :
  let first := AwaitingStop 7 true (new_Game sample_fen 7 "w") in
  let second := AwaitingStop 7 false (new_Game sample_fen 7 "w") in
  let w1 :=
    resume first sample_evaluation ∅
      (requested second (requested first playing)) in
  let w2 := resume second sample_evaluation ∅ w1 in
  overlapped w2 []
  /\ games (db w2) = games (db w1)
  /\ tally (db w2) 7 played = tally (db playing) 7 played + 1
  /\ exists user2,
       find_user (db w2) 7 = Some user2
       /\ User.total_games user2 = 0 + 2.
Proof.
  apply (overlapping_stops_count_twice 7 true false
           (new_Game sample_fen 7 "w") (new_User 1000 7 "ann")
           sample_evaluation sample_evaluation playing []).
  - apply reachable_overlapped. unfold playing.
    do 2 apply reachable_exec. apply reachable_initial.
  - reflexivity.
  - reflexivity.
Defined.

(** ** Finding rows *)

(** X19.  In a store where each user has at most one active game and each
    id at most one user row, the lookups find the row whichever it is:
    [get_current_game] returns a game exactly when it is a row of the user
    that is active, and [get_user] returns a user exactly when it is a row
    with the id. *)
Theorem lookups_find_the_row user_id w :
  consistent (db w) ->
  (forall g,
     get_current_game user_id w = (w, Return (Some g))
     <-> In g (games (db w)) /\ Game.user_id g = user_id
         /\ Game.is_active g = true)
  /\ (forall u,
        get_user user_id w = (w, Return (Some u))
        <-> In u (users (db w)) /\ User.user_id u = user_id).
Proof.
  intros [Hone _ _ Huniq]. split.
  - intros g. rewrite get_current_game_run. split.
    + intros [= Hg]. apply scalar_filter_In in Hg as [Hin Hsel].
      apply andb_prop in Hsel as [Hid%Z.eqb_eq Hactive]. auto.
    + intros (Hin & Hid & Hactive). do 3 f_equal.
      assert (Hsel : In g (active_games (db w) user_id)).
      { apply List.filter_In. split; [exact Hin|].
        unfold where_active_game. rewrite Hactive.
        apply Z.eqb_eq in Hid. now rewrite Hid. }
      specialize (Hone user_id). unfold current_game.
      destruct (active_games (db w) user_id) as [|g' [|g'' rest]];
        cbn in *; [tauto| |lia].
      destruct Hsel as [->|[]]. reflexivity.
  - intros u. rewrite get_user_run. split.
    + intros [= Hu]. apply scalar_filter_In in Hu as [Hin Hsel].
      apply Z.eqb_eq in Hsel. auto.
    + intros (Hin & Hid). do 3 f_equal. unfold find_user.
      destruct (scalar (List.filter (where_user user_id) (users (db w))))
        as [u'|] eqn:Hu'.
      * apply scalar_filter_In in Hu' as [Hin' Hsel]. apply Z.eqb_eq in Hsel.
        f_equal. apply (unique_user_row (users (db w))); auto. congruence.
      * apply scalar_filter_None in Hu'.
        assert (Hsel : In u (List.filter (where_user user_id) (users (db w)))).
        { apply List.filter_In. split; [exact Hin|]. now apply Z.eqb_eq. }
        rewrite Hu' in Hsel. destruct Hsel.
Qed.

Lemma lookups_find_the_row_witness :
  (forall g,
     get_current_game 7 replaying = (replaying, Return (Some g))
     <-> In g (games (db replaying)) /\ Game.user_id g = 7
         /\ Game.is_active g = true)
  /\ (forall u,
        get_user 7 replaying = (replaying, Return (Some u))
        <-> In u (users (db replaying)) /\ User.user_id u = 7).
Proof.
  apply (lookups_find_the_row 7 replaying).
  apply reachable_consistent. unfold replaying, playing.
  do 3 apply reachable_exec. apply reachable_initial.
Defined.

(** ** One user at a time *)

Lemma isolated_refl user_id s : isolated user_id s s.
Proof. unfold isolated. auto. Qed.

Lemma isolated_trans user_id s1 s2 s3 :
  isolated user_id s1 s2 -> isolated user_id s2 s3 -> isolated user_id s1 s3.
Proof.
  intros (Hg1 & Hu1 & Hs1) (Hg2 & Hu2 & Hs2). repeat split; eauto.
Qed.

Lemma isolated_stopped s user_id who_win game user :
  isolated user_id s (stopped_store s user_id who_win game user).
Proof.
  repeat split; cbn [games users settings stopped_store].
  - intros i g Hg Hne. rewrite update_where_lookup, Hg. cbn.
    unfold where_active_game.
    destruct (Z.eqb_spec (Game.user_id g) user_id); [contradiction|reflexivity].
  - intros i u Hu Hne. rewrite update_where_lookup, Hu. cbn.
    unfold where_user.
    destruct (Z.eqb_spec (User.user_id u) user_id); [contradiction|reflexivity].
  - auto.
Qed.

Lemma isolated_with_game s user_id game : isolated user_id s (with_game s game).
Proof.
  repeat split; cbn [games users settings with_game]; auto.
  intros i g Hg _. now apply lookup_app_l_Some.
Qed.

(** X20.  A call about one user leaves the rows of every other user as
    they were, each at its place: the games of another user, the user rows
    of another id and the settings rows of another user.  The leaderboard
    changes nothing. *)
Theorem exec_isolated c w :
  match call_user c with
  | Some user_id => isolated user_id (db w) (db (exec c w))
  | None => exec c w = w
  end.
Proof.
  destruct c as [defaults utcnow user_id name
                |engine start_fen user_id orientation
                |engine user_id is_resign
                |user_id prev_moves last_move check fen
                |limits user_id params
                |top ttl]; cbn [call_user exec].
  - destruct (find_user (db w) user_id) as [user|] eqn:Huser.
    + rewrite (create_new_user_exists _ _ _ _ _ user Huser).
      apply isolated_refl.
    + rewrite (create_new_user_new _ _ _ _ _ Huser).
      repeat split; cbn [fst db games users settings]; auto;
        intros i r Hr _; now apply lookup_app_l_Some.
  - destruct (create_new_game_cases engine start_fen user_id orientation w)
      as [(_ & _ & Hcase)
         |[(Hnone & Hcase)
          |[(game & user & Hgame & Huser & Hcase)
           |(game & Hgame & Huser & Hcase)]]];
      rewrite Hcase; cbn [fst db].
    + apply isolated_refl.
    + apply isolated_with_game.
    + eapply isolated_trans; [apply isolated_stopped|apply isolated_with_game].
    + apply isolated_refl.
  - destruct (current_game (db w) user_id) as [game|] eqn:Hgame.
    + destruct (find_user (db w) user_id) as [user|] eqn:Huser.
      * pose proof (stop_current_game_some engine _ _ is_resign _ _ Hgame Huser)
          as Hstop.
        cbv zeta in Hstop. rewrite Hstop. apply isolated_stopped.
      * rewrite (stop_current_game_no_user engine _ _ is_resign _ Hgame Huser).
        apply isolated_refl.
    + rewrite (stop_current_game_none engine _ _ is_resign Hgame).
      apply isolated_refl.
  - destruct (current_game (db w) user_id) as [game|] eqn:Hgame.
    + rewrite (update_current_game_some _ _ _ _ _ _ _ Hgame).
      repeat split; cbn [fst db games users settings]; auto.
      intros i g Hg Hne. rewrite update_where_lookup, Hg. cbn.
      unfold where_active_game.
      destruct (Z.eqb_spec (Game.user_id g) user_id);
        [contradiction|reflexivity].
    + rewrite (update_current_game_none _ _ _ _ _ _ Hgame).
      apply isolated_refl.
  - rewrite update_settings_run. destruct (clamp_loop _ _ _);
      [|apply isolated_refl].
    repeat split; cbn [fst db games users settings]; auto.
    intros i r Hr Hsel. rewrite update_where_lookup, Hr. cbn. now rewrite Hsel.
  - apply get_global_statistic_world.
Qed.

(** ** The message of the front end *)

(** X21.  The message [stop_game] builds names the result that
    [stop_current_game], called without a resignation, records for the same
    evaluation: white or black as the winner, or a draw.  This holds for an
    evaluation that, when the position is terminal, reports white or black
    as the winner of a checkmate and no winner otherwise. *)
Theorem stop_game_message_agrees game evaluation :
  (EngineEvaluation.is_end evaluation = true ->
   if String.eqb (EngineEvaluation.end_type evaluation) "checkmate"
   then EngineEvaluation.who_win evaluation = Some "w"
        \/ EngineEvaluation.who_win evaluation = Some "b"
   else EngineEvaluation.who_win evaluation = None) ->
  let message (result : string) := "Игра закончилась *" +:+ result +:+ "!*" in
  let mate :=
    " (mate in " +:+ pretty (Z.abs (EngineEvaluation.value evaluation))
    +:+ ")" in
  match resolve_who_win false game evaluation with
  | Some winner =>
      (winner = "w"
       /\ (stop_game_message evaluation = message "победой белых"
           \/ stop_game_message evaluation
              = message ("победой белых" +:+ mate)))
      \/ (winner = "b"
          /\ (stop_game_message evaluation = message "победой чёрных"
              \/ stop_game_message evaluation
                 = message ("победой чёрных" +:+ mate)))
  | None => stop_game_message evaluation = message "ничьёй"
  end.
Proof.
  intros Hwf. cbv zeta. unfold resolve_who_win, stop_game_message.
  destruct (EngineEvaluation.is_end evaluation) eqn:Hend.
  - specialize (Hwf eq_refl).
    destruct (String.eqb (EngineEvaluation.end_type evaluation) "checkmate").
    + destruct Hwf as [-> | ->]; cbn; auto.
    + rewrite Hwf. reflexivity.
  - clear Hwf.
    destruct (String.eqb (EngineEvaluation.end_type evaluation) "checkmate");
      [|reflexivity].
    destruct (Z.ltb 0 (EngineEvaluation.value evaluation)); cbn; auto.
Qed.

Lemma stop_game_message_agrees_witness :
  stop_game_message
    (EngineEvaluation.mk 0 "checkmate" true (Some "w") (1000, 0, 0))
  = "Игра закончилась *победой белых!*".
Proof.
  destruct (stop_game_message_agrees (new_Game sample_fen 7 "b")
              (EngineEvaluation.mk 0 "checkmate" true (Some "w") (1000, 0, 0))
              (fun _ => or_introl eq_refl))
    as [[_ [Hmsg|Hmsg]]|[Hb _]].
  - exact Hmsg.
  - discriminate Hmsg.
  - discriminate Hb.
Defined.

(** ** Which tables a call writes *)

(** X22.  The calls that start, stop and move games never write to the
    settings; a start and a stop keep the number of user rows, a move leaves
    the users as they are.  [update_settings] never writes to the users or
    the games.  [create_new_user] never writes to the games and only appends
    to the users and the settings.  The leaderboard writes nothing. *)
Theorem exec_tables c w :
  match c with
  | CreateNewUser _ _ _ _ =>
      games (db (exec c w)) = games (db w)
      /\ (exists more, users (db (exec c w)) = users (db w) ++ more)
      /\ (exists more, settings (db (exec c w)) = settings (db w) ++ more)
  | CreateNewGame _ _ _ _ | StopCurrentGame _ _ _ =>
      settings (db (exec c w)) = settings (db w)
      /\ length (users (db (exec c w))) = length (users (db w))
  | UpdateCurrentGame _ _ _ _ _ =>
      settings (db (exec c w)) = settings (db w)
      /\ users (db (exec c w)) = users (db w)
  | UpdateSettings _ _ _ =>
      users (db (exec c w)) = users (db w)
      /\ games (db (exec c w)) = games (db w)
  | GetGlobalStatistic _ _ => exec c w = w
  end.
Proof.
  destruct c as [defaults utcnow user_id name
                |engine start_fen user_id orientation
                |engine user_id is_resign
                |user_id prev_moves last_move check fen
                |limits user_id params
                |top ttl]; cbn [exec].
  - destruct (find_user (db w) user_id) as [user|] eqn:Huser.
    + rewrite (create_new_user_exists _ _ _ _ _ user Huser). cbn [fst].
      repeat split; exists []; now rewrite app_nil_r.
    + rewrite (create_new_user_new _ _ _ _ _ Huser).
      cbn [fst db games users settings]. repeat split; eauto.
  - destruct (create_new_game_cases engine start_fen user_id orientation w)
      as [(_ & _ & Hcase)
         |[(Hnone & Hcase)
          |[(game & user & Hgame & Huser & Hcase)
           |(game & Hgame & Huser & Hcase)]]];
      rewrite Hcase; cbn [fst db users settings with_game stopped_store];
      split; auto using update_where_length.
  - destruct (current_game (db w) user_id) as [game|] eqn:Hgame.
    + destruct (find_user (db w) user_id) as [user|] eqn:Huser.
      * pose proof (stop_current_game_some engine _ _ is_resign _ _ Hgame Huser)
          as Hstop.
        cbv zeta in Hstop. rewrite Hstop.
        cbn [fst db users settings stopped_store].
        split; auto using update_where_length.
      * rewrite (stop_current_game_no_user engine _ _ is_resign _ Hgame Huser).
        auto.
    + rewrite (stop_current_game_none engine _ _ is_resign Hgame). auto.
  - destruct (current_game (db w) user_id) as [game|] eqn:Hgame.
    + rewrite (update_current_game_some _ _ _ _ _ _ _ Hgame). auto.
    + rewrite (update_current_game_none _ _ _ _ _ _ Hgame). auto.
  - rewrite update_settings_run. destruct (clamp_loop _ _ _); auto.
  - apply get_global_statistic_world.
Qed.
